(** * pi_mood: a shallow embedding of [main.py]

    The program arms one rising-edge listener per configured push-button on a
    Raspberry Pi; each delivered edge uploads one point to InfluxDB and pulses
    an LED.  The embedding follows [main.py] function by function.  Calls into
    RPi.GPIO, influxdb, time and logging are recorded, in program order, in a
    timed trace; what those libraries answer is supplied by an environment
    ([Env]), so every theorem stated for all [env] holds whatever the hardware
    and the database do.  A library function [f] is embedded as [f_]; the
    constructor [f] of [call] is the record of a call to it. *)

From Stdlib Require Import ZArith List String Bool Lia.
Import ListNotations.
Local Open Scope string_scope.
Local Open Scope list_scope.
Local Open Scope Z_scope.

(** ** Exceptions and results *)

(** The Python exceptions that can travel through [main.py].  [DataError] is
    what schematics raises on a validation failure (the specification's
    ConfigurationError); [RuntimeError] is what the GPIO facility raises (the
    specification's HardwareFault); [InfluxDBError] stands for whatever the
    influxdb client raises (the specification's UploadFailure);
    [ValueError], [OverflowError] and [OSError] are what [time.sleep] and the
    division before it raise. *)
Inductive exn : Type :=
| DataError
| AttributeError
| TypeError
| ValueError
| OverflowError
| OSError
| RuntimeError
| InfluxDBError
| KeyboardInterrupt.

(** A computation returns, raises, or goes no further: [Blocked] is the main
    thread inside [time.sleep] with nothing more to come, either because the
    observed script of stimuli ends there or because the process was ended
    there by a signal.  No statement of the program runs after it, not even
    a [finally] block. *)
Inductive outcome (A : Type) : Type :=
| Ret (a : A)
| Raise (e : exn)
| Blocked.
Arguments Ret {A} a.
Arguments Raise {A} e.
Arguments Blocked {A}.

(** ** Configuration models (schematics) *)

(** The mappings below are what [yaml.safe_load] returned, for a file that
    could be read and holds a mapping with declared keys only, each of them
    absent or carrying a value of the declared type.  A file that cannot be
    opened or parsed, a key that no model declares, a null and a value of
    another type are not represented: nothing is stated about them. *)

Module ButtonModel.
(** The mapping read from YAML: a key is absent or carries a value. *)
Record raw : Type := mk_raw
  { raw_pin : option Z; raw_label : option string; raw_value : option Z }.
Record t : Type := mk { pin : Z; label : string; value : Z }.

(** [pin], [label] and [value] are all [required=True]. *)
Definition validate (r : raw) : outcome t :=
  match raw_pin r, raw_label r, raw_value r with
  | Some p, Some l, Some v => Ret (mk p l v)
  | _, _, _ => Raise DataError
  end.
End ButtonModel.

Module LedModel.
Record raw : Type := mk_raw
  { raw_pin : option Z; raw_flash_time_ms : option Z }.
Record t : Type := mk { pin : Z; flash_time_ms : Z }.

(** [pin] is required; [flash_time_ms] is required with default 200. *)
Definition validate (r : raw) : outcome t :=
  match raw_pin r with
  | Some p =>
      Ret (mk p (match raw_flash_time_ms r with Some f => f | None => 200 end))
  | None => Raise DataError
  end.
End LedModel.

Module InfluxdbModel.
Record raw : Type := mk_raw
  { raw_database_name : option string; raw_measurement_name : option string }.
Record t : Type := mk { database_name : string; measurement_name : string }.

(** [database_name] is required; [measurement_name] defaults to "pi_mood". *)
Definition validate (r : raw) : outcome t :=
  match raw_database_name r with
  | Some d =>
      Ret (mk d (match raw_measurement_name r with
                 | Some m => m
                 | None => "pi_mood"
                 end))
  | None => Raise DataError
  end.
End InfluxdbModel.

Module OverallModel.
Record raw : Type := mk_raw
  { raw_buttons : option (list ButtonModel.raw);
    raw_led : option LedModel.raw;
    raw_bouncetime : option Z;
    raw_influxdb : option InfluxdbModel.raw }.

(** None of [buttons], [led] and [influxdb] is declared [required]: an
    absent key leaves the attribute at Python's [None]. *)
Record t : Type := mk
  { buttons : option (list ButtonModel.t);
    led : option LedModel.t;
    bouncetime : Z;
    influxdb : option InfluxdbModel.t }.

Fixpoint validate_buttons (l : list ButtonModel.raw)
  : outcome (list ButtonModel.t) :=
  match l with
  | [] => Ret []
  | r :: rest =>
      match ButtonModel.validate r with
      | Ret b =>
          match validate_buttons rest with
          | Ret bs => Ret (b :: bs)
          | Raise e => Raise e
          | Blocked => Blocked
          end
      | Raise e => Raise e
      | Blocked => Blocked
      end
  end.

(** Validation of an optional (not required) sub-model. *)
Definition validate_opt {R T : Type} (v : R -> outcome T) (r : option R)
  : outcome (option T) :=
  match r with
  | None => Ret None
  | Some x =>
      match v x with
      | Ret y => Ret (Some y)
      | Raise e => Raise e
      | Blocked => Blocked
      end
  end.

(** [OverallModel(raw_cfg)] followed by [cfg.validate(partial=False)]. *)
Definition validate (r : raw) : outcome t :=
  match validate_opt validate_buttons (raw_buttons r) with
  | Ret bs =>
      match validate_opt LedModel.validate (raw_led r) with
      | Ret l =>
          match validate_opt InfluxdbModel.validate (raw_influxdb r) with
          | Ret i =>
              Ret (mk bs l
                      (match raw_bouncetime r with Some b => b | None => 200 end)
                      i)
          | Raise e => Raise e
          | Blocked => Blocked
          end
      | Raise e => Raise e
      | Blocked => Blocked
      end
  | Raise e => Raise e
  | Blocked => Blocked
  end.
End OverallModel.

(** ** External calls, log records and the trace *)

Inductive numbering : Type := BOARD | BCM.
Inductive direction : Type := IN | OUT.
Inductive pull : Type := PUD_OFF | PUD_DOWN | PUD_UP.
Inductive edge_kind : Type := RISING | FALLING | BOTH.
Inductive level : Type := LOW | HIGH.

(** An [InfluxDBClient] object: its identity and the database it is bound to. *)
Record client : Type := mk_client { client_id : nat; client_db : string }.

(** The dictionary built by the upload callback. *)
Record point : Type := mk_point
  { measurement : string;
    fields : list (string * Z);
    time : Z }.

Inductive call : Type :=
| GPIO_setmode (m : numbering)
| GPIO_setup (pin : Z) (d : direction) (pud : pull)
| GPIO_add_event_detect (pin : Z) (e : edge_kind)
                        (callback : ButtonModel.t) (bouncetime : Z)
| GPIO_output (pin : Z) (l : level)
| GPIO_cleanup
| time_sleep (ms : Z)
| InfluxDBClient (database : string)
| create_database (c : client) (name : string)
| write_points (c : client) (points : list point).

Inductive severity : Type := DEBUG | INFO | ERROR.

Inductive message : Type :=
| LoadedConfiguration
| UploadingMeasurement (p : point)
| InfluxdbResponse (result : bool)
| TurningLedOn
| TurnedLedOff
| ButtonWasPressed (label : string) (pin : Z)
| CallbackGotEventFor (button_pin pin : Z)
| GpioInitComplete
| ClosingGpio
| StillAlive.

Inductive event : Type :=
| Ev (c : call)
| Log (s : severity) (m : message).

(** ** The world *)

(** What the GPIO facility holds: the numbering mode, the claimed pins, the
    armed listeners (the registered callback is [callback_for_button button
    handler], kept as the button it closes over) and the output levels. *)
Record gpio_state : Type := mk_gpio
  { mode : option numbering;
    claimed : list (Z * direction);
    listeners : list (Z * ButtonModel.t);
    levels : list (Z * level) }.

Definition gpio_released : gpio_state := mk_gpio None [] [] [].

(** [trace] is chronological; each entry carries the clock (milliseconds) at
    which the call was initiated. *)
Record world : Type := mk_world
  { trace : list (Z * event);
    now : Z;
    gpio : gpio_state }.

Definition events (w : world) : list event := map snd (trace w).

(** The answers of the outside world.  [fault w c] is the exception, if any,
    with which the library call [c] fails in world [w]; [write_result w] is
    what a [write_points] that does not raise returns, and [round_trip w] is
    how long (milliseconds) the store takes over a [write_points] made in
    [w], whether it returns or raises. *)
Record Env : Type := mk_env
  { fault : world -> call -> option exn;
    write_result : world -> bool;
    round_trip : world -> Z }.

Definition M (A : Type) : Type := world -> outcome A * world.

Definition ret {A : Type} (a : A) : M A := fun w => (Ret a, w).
Definition raise {A : Type} (e : exn) : M A := fun w => (Raise e, w).

Definition bind {A B : Type} (m : M A) (k : A -> M B) : M B :=
  fun w =>
    match m w with
    | (Ret a, w') => k a w'
    | (Raise e, w') => (Raise e, w')
    | (Blocked, w') => (Blocked, w')
    end.

Notation "x <- m ;; k" := (bind m (fun x => k))
  (at level 61, m at next level, right associativity).
Notation "m ;; k" := (bind m (fun _ => k))
  (at level 61, right associativity).

(** [try: m finally: fin].  The finaliser runs when [m] returns or raises; an
    exception of the finaliser replaces the pending one.  A computation that
    is still blocked has not left the [try] block. *)
Definition try_finally {A : Type} (m : M A) (fin : M unit) : M A :=
  fun w =>
    match m w with
    | (Blocked, w') => (Blocked, w')
    | (o, w') =>
        match fin w' with
        | (Ret _, w'') => (o, w'')
        | (Raise e, w'') => (Raise e, w'')
        | (Blocked, w'') => (Blocked, w'')
        end
    end.

(** Lifting of a pure result (attribute access, validation). *)
Definition lift {A : Type} (o : outcome A) : M A := fun w => (o, w).

(** [x.attr] where [x] may be [None]. *)
Definition attr {A : Type} (x : option A) : M A :=
  match x with
  | Some a => ret a
  | None => raise AttributeError
  end.

(** [for _ in x] where [x] may be [None]. *)
Definition iter {A : Type} (x : option (list A)) : M (list A) :=
  match x with
  | Some l => ret l
  | None => raise TypeError
  end.

Definition emit (e : event) : M unit :=
  fun w => (Ret tt, mk_world (trace w ++ [(now w, e)]) (now w) (gpio w)).

Definition logger (s : severity) (m : message) : M unit := emit (Log s m).

(** What reaches the process while it is armed: a rising edge the facility
    delivers on [pin] at instant [t]; the return of the main thread's
    [time.sleep(300)]; an exception [e] raised in that sleep, as by a signal
    that Python turns into an exception in the main thread (SIGINT, as
    [KeyboardInterrupt]); or a signal whose default action ends the process
    (SIGTERM, SIGHUP, SIGKILL): [main.py] installs no handler, so the
    process is gone without any exception being raised. *)
Inductive stimulus : Type :=
| Edge (pin t : Z)
| Wake
| Signal (e : exn)
| Terminate.

(** ** The libraries, as seen from [main.py] *)

Section Program.

Context (env : Env).

(** A library call: recorded, then it fails if the environment says so;
    [effect] is what a successful call does to the GPIO facility. *)
Definition extcall (c : call) (effect : gpio_state -> gpio_state) : M unit :=
  fun w =>
    let tr := trace w ++ [(now w, Ev c)] in
    match fault env w c with
    | Some e => (Raise e, mk_world tr (now w) (gpio w))
    | None => (Ret tt, mk_world tr (now w) (effect (gpio w)))
    end.

Definition set_level (pin : Z) (l : level) (ls : list (Z * level))
  : list (Z * level) :=
  (pin, l) :: filter (fun x => negb (Z.eqb (fst x) pin)) ls.

Definition GPIO_setmode_ (m : numbering) : M unit :=
  extcall (GPIO_setmode m)
    (fun g => mk_gpio (Some m) (claimed g) (listeners g) (levels g)).

Definition GPIO_setup_ (pin : Z) (d : direction) (pud : pull) : M unit :=
  extcall (GPIO_setup pin d pud)
    (fun g => mk_gpio (mode g) (claimed g ++ [(pin, d)]) (listeners g) (levels g)).

(** The callback that [init_gpio] registers is the closure
    [callback_for_button(button, button_handler)]; the facility keeps it as
    the [button] it closes over, and [deliver] below is given the handler. *)
Definition GPIO_add_event_detect_ (pin : Z) (e : edge_kind)
           (callback : ButtonModel.t) (bouncetime : Z) : M unit :=
  extcall (GPIO_add_event_detect pin e callback bouncetime)
    (fun g => mk_gpio (mode g) (claimed g) (listeners g ++ [(pin, callback)])
                      (levels g)).

Definition GPIO_output_ (pin : Z) (l : level) : M unit :=
  extcall (GPIO_output pin l)
    (fun g => mk_gpio (mode g) (claimed g) (listeners g)
                      (set_level pin l (levels g))).

(** Modelled from the spec: [GPIO.cleanup] is RPi.GPIO's, not this
    repository's; release_all "releases every claimed pin and disarms all
    listeners" and "must not fail even if some pins were never
    configured". *)
Definition GPIO_cleanup_ : M unit :=
  fun w =>
    (Ret tt, mk_world (trace w ++ [(now w, Ev GPIO_cleanup)]) (now w)
                      gpio_released).

(** The first integer that has no float: [ms / 1000.0] converts [ms] to a
    float and raises [OverflowError] from [float_max] on, in magnitude. *)
Definition float_max : Z := 2 ^ 1024 - 2 ^ 970.

(** The longest sleep, in milliseconds, whose length in nanoseconds fits
    the signed 64-bit integer in which CPython keeps it. *)
Definition sleep_max : Z := 9223372036854.

(** [time.sleep(ms / 1000.0)] on the calling thread.  The division comes
    first: if it overflows, [time.sleep] is not called.  [time.sleep] then
    raises [OverflowError] on a length beyond [sleep_max] in magnitude,
    [ValueError] on a negative one, and whatever the platform's sleep fails
    with; otherwise the thread is blocked for [ms] and the clock advances. *)
Definition time_sleep_ (ms : Z) : M unit :=
  fun w =>
    if float_max <=? Z.abs ms then (Raise OverflowError, w)
    else
      let tr := trace w ++ [(now w, Ev (time_sleep ms))] in
      if sleep_max <? Z.abs ms
      then (Raise OverflowError, mk_world tr (now w) (gpio w))
      else if ms <? 0 then (Raise ValueError, mk_world tr (now w) (gpio w))
      else match fault env w (time_sleep ms) with
           | Some e => (Raise e, mk_world tr (now w) (gpio w))
           | None => (Ret tt, mk_world tr (now w + ms) (gpio w))
           end.

(** [datetime.utcnow()]. *)
Definition utcnow : M Z := fun w => (Ret (now w), w).

Definition is_new_client (e : event) : bool :=
  match e with Ev (InfluxDBClient _) => true | _ => false end.

(** [InfluxDBClient(database=name)]: a fresh object on each call. *)
Definition InfluxDBClient_ (database : string) : M client :=
  fun w =>
    let c := mk_client (List.length (filter is_new_client (events w))) database in
    match extcall (InfluxDBClient database) (fun g => g) w with
    | (Ret _, w') => (Ret c, w')
    | (Raise e, w') => (Raise e, w')
    | (Blocked, w') => (Blocked, w')
    end.

Definition create_database_ (c : client) (name : string) : M unit :=
  extcall (create_database c name) (fun g => g).

(** The calling thread is blocked for the time the store takes. *)
Definition elapse (ms : Z) (w : world) : world :=
  mk_world (trace w) (now w + Z.max 0 ms) (gpio w).

(** [influx_client.write_points(points)]: a blocking round trip to the
    store. *)
Definition write_points_ (c : client) (points : list point) : M bool :=
  fun w =>
    match extcall (write_points c points) (fun g => g) w with
    | (Ret _, w') => (Ret (write_result env w), elapse (round_trip env w) w')
    | (Raise e, w') => (Raise e, elapse (round_trip env w) w')
    | (Blocked, w') => (Blocked, w')
    end.

(** ** [main.py] *)

(** [load_config_from_file], from the mapping that [yaml.safe_load]
    returned for the file (a mapping as the [raw] records describe it). *)
Definition load_config_from_file (raw_cfg : OverallModel.raw)
  : M OverallModel.t :=
  cfg <- lift (OverallModel.validate raw_cfg) ;;
  logger INFO LoadedConfiguration ;;
  ret cfg.

Definition get_influxdb_client (config : option InfluxdbModel.t) : M client :=
  c <- attr config ;;
  influxdb_client <- InfluxDBClient_ (InfluxdbModel.database_name c) ;;
  create_database_ influxdb_client (InfluxdbModel.database_name c) ;;
  ret influxdb_client.

(** The closure [callback] returned by [post_to_influxdb_callback]: it
    captures [config] and [influx_client]. *)
Definition influxdb_callback (config : option InfluxdbModel.t)
           (influx_client : client) (button : ButtonModel.t) : M unit :=
  c <- attr config ;;
  t <- utcnow ;;
  let measurement :=
    mk_point (InfluxdbModel.measurement_name c)
             [(ButtonModel.label button, ButtonModel.value button)] t in
  logger DEBUG (UploadingMeasurement measurement) ;;
  result <- write_points_ influx_client [measurement] ;;
  logger DEBUG (InfluxdbResponse result).

Definition post_to_influxdb_callback (config : option InfluxdbModel.t)
  : M (ButtonModel.t -> M unit) :=
  influx_client <- get_influxdb_client config ;;
  ret (influxdb_callback config influx_client).

Definition flash_led (led : option LedModel.t) : M unit :=
  logger DEBUG TurningLedOn ;;
  l <- attr led ;;
  GPIO_output_ (LedModel.pin l) HIGH ;;
  time_sleep_ (LedModel.flash_time_ms l) ;;
  GPIO_output_ (LedModel.pin l) LOW ;;
  logger DEBUG TurnedLedOff.

Definition callback_for_button (button : ButtonModel.t)
           (handler : ButtonModel.t -> M unit) (pin : Z) : M unit :=
  logger INFO (ButtonWasPressed (ButtonModel.label button) pin) ;;
  (if negb (Z.eqb pin (ButtonModel.pin button))
   then logger ERROR (CallbackGotEventFor (ButtonModel.pin button) pin)
   else ret tt) ;;
  handler button.

(** The loop of [init_gpio] over the buttons. *)
Fixpoint setup_buttons (bouncetime : Z) (buttons : list ButtonModel.t)
  : M unit :=
  match buttons with
  | [] => ret tt
  | button :: rest =>
      GPIO_setup_ (ButtonModel.pin button) IN PUD_DOWN ;;
      GPIO_add_event_detect_ (ButtonModel.pin button) RISING button
                             bouncetime ;;
      setup_buttons bouncetime rest
  end.

Definition init_gpio (physical_config : OverallModel.t)
           (button_handler : ButtonModel.t -> M unit) : M unit :=
  GPIO_setmode_ BOARD ;;
  buttons <- iter (OverallModel.buttons physical_config) ;;
  setup_buttons (OverallModel.bouncetime physical_config) buttons ;;
  led <- attr (OverallModel.led physical_config) ;;
  GPIO_setup_ (LedModel.pin led) OUT PUD_OFF ;;
  GPIO_output_ (LedModel.pin led) LOW ;;
  logger INFO GpioInitComplete.

Definition close_gpio : M unit :=
  logger INFO ClosingGpio ;;
  GPIO_cleanup_.

(** [with gpio_context(physical_config, button_handler): body]. *)
Definition gpio_context {A : Type} (physical_config : OverallModel.t)
           (button_handler : ButtonModel.t -> M unit) (body : M A) : M A :=
  try_finally (init_gpio physical_config button_handler ;; body) close_gpio.

(** The closure [callback] returned by
    [post_to_influxdb_and_flash_led_callback]. *)
Definition button_callback (config : OverallModel.t)
           (influxdb_callback : ButtonModel.t -> M unit)
           (button : ButtonModel.t) : M unit :=
  influxdb_callback button ;;
  flash_led (OverallModel.led config).

Definition post_to_influxdb_and_flash_led_callback (config : OverallModel.t)
  : M (ButtonModel.t -> M unit) :=
  influxdb_callback <- post_to_influxdb_callback (OverallModel.influxdb config) ;;
  ret (button_callback config influxdb_callback).

(** ** Edge delivery and the armed process *)

(** The clock reaches [t] (it never runs backwards: a callback starts once
    the callback thread is free). *)
Definition at_instant (t : Z) : M unit :=
  fun w => (Ret tt, mk_world (trace w) (Z.max (now w) t) (gpio w)).

(** The facility runs a registered callback on its own thread: whatever
    the callback raises arrives in the facility, not in the main thread. *)
Definition invoke (cb : M unit) : M unit :=
  fun w => (Ret tt, snd (cb w)).

Fixpoint deliver_to (handler : ButtonModel.t -> M unit) (pin : Z)
         (ls : list (Z * ButtonModel.t)) : M unit :=
  match ls with
  | [] => ret tt
  | (p, button) :: rest =>
      (if Z.eqb p pin
       then invoke (callback_for_button button handler pin)
       else ret tt) ;;
      deliver_to handler pin rest
  end.

(** A rising edge on [pin] at instant [t]: every callback armed on that
    pin is called with the pin number. *)
Definition deliver (handler : ButtonModel.t -> M unit) (pin t : Z) : M unit :=
  at_instant t ;;
  fun w => deliver_to handler pin (listeners (gpio w)) w.

Fixpoint deliver_all (handler : ButtonModel.t -> M unit)
         (edges : list (Z * Z)) : M unit :=
  match edges with
  | [] => ret tt
  | (pin, t) :: rest => deliver handler pin t ;; deliver_all handler rest
  end.

(** [while True: time.sleep(300); logger.debug("Still alive...")], with
    the main thread inside the [time.sleep] that began at [started].  A
    signal that raises ends the sleep with that exception; a signal that
    terminates ends the process where it is, and what would have come after
    never reaches it. *)
Fixpoint keep_alive (handler : ButtonModel.t -> M unit) (started : Z)
         (script : list stimulus) : M unit :=
  match script with
  | [] => fun w => (Blocked, w)
  | Edge pin t :: rest =>
      deliver handler pin t ;; keep_alive handler started rest
  | Wake :: rest =>
      at_instant (started + 300000) ;;
      logger DEBUG StillAlive ;;
      fun w =>
        (emit (Ev (time_sleep 300000)) ;; keep_alive handler (now w) rest) w
  | Signal e :: _ => raise e
  | Terminate :: _ => fun w => (Blocked, w)
  end.

Definition main_loop (handler : ButtonModel.t -> M unit)
           (script : list stimulus) : M unit :=
  fun w => (emit (Ev (time_sleep 300000)) ;; keep_alive handler (now w) script) w.

Definition main (config : OverallModel.t) (script : list stimulus) : M unit :=
  button_callback <- post_to_influxdb_and_flash_led_callback config ;;
  gpio_context config button_callback (main_loop button_callback script).

(** The [__main__] block: load the configuration, then [main]
    ([setup_logging] only sets the format of the log records). *)
Definition program (raw_cfg : OverallModel.raw) (script : list stimulus)
  : M unit :=
  cfg <- load_config_from_file raw_cfg ;;
  main cfg script.

End Program.

(** ** Observations on traces *)

Definition is_cleanup (e : event) : bool :=
  match e with Ev GPIO_cleanup => true | _ => false end.

Definition is_setmode (e : event) : bool :=
  match e with Ev (GPIO_setmode _) => true | _ => false end.

Definition is_listen (e : event) : bool :=
  match e with Ev (GPIO_add_event_detect _ _ _ _) => true | _ => false end.

Definition is_output (e : event) : bool :=
  match e with Ev (GPIO_output _ _) => true | _ => false end.

Definition is_gpio (e : event) : bool :=
  match e with
  | Ev (GPIO_setmode _) | Ev (GPIO_setup _ _ _)
  | Ev (GPIO_add_event_detect _ _ _ _) | Ev (GPIO_output _ _)
  | Ev GPIO_cleanup => true
  | _ => false
  end.

Definition is_create (e : event) : bool :=
  match e with Ev (create_database _ _) => true | _ => false end.

Definition is_write (e : event) : bool :=
  match e with Ev (write_points _ _) => true | _ => false end.

Definition is_error_log (e : event) : bool :=
  match e with Log ERROR _ => true | _ => false end.

(** A stimulus that ends the main loop. *)
Definition is_signal (s : stimulus) : bool :=
  match s with Signal _ | Terminate => true | _ => false end.

(** How many times [GPIO.cleanup] was called. *)
Definition cleanups (es : list event) : nat :=
  List.length (filter is_cleanup es).

(** The points handed to [write_points], in order. *)
Fixpoint submitted (es : list event) : list point :=
  match es with
  | [] => []
  | Ev (write_points _ pts) :: rest => pts ++ submitted rest
  | _ :: rest => submitted rest
  end.

(** The clients through which points were written, in order. *)
Fixpoint writers (es : list event) : list client :=
  match es with
  | [] => []
  | Ev (write_points c _) :: rest => c :: writers rest
  | _ :: rest => writers rest
  end.

(** What a computation added to the trace. *)
Definition emitted (w w' : world) : list event :=
  skipn (List.length (events w)) (events w').

(** The same, with the instants. *)
Definition timed_emitted (w w' : world) : list (Z * event) :=
  skipn (List.length (trace w)) (trace w').

(** The levels written to [pin], with their instants. *)
Definition led_outputs (pin : Z) (tr : list (Z * event)) : list (Z * level) :=
  flat_map (fun x => match snd x with
                     | Ev (GPIO_output p l) =>
                         if Z.eqb p pin then [(fst x, l)] else []
                     | _ => []
                     end) tr.

(** The client that [InfluxDBClient(database=db)] returns in world [w]. *)
Definition next_client (w : world) (db : string) : client :=
  mk_client (List.length (filter is_new_client (events w))) db.

(** The callbacks armed on [pin]. *)
Definition armed_on (pin : Z) (g : gpio_state) : list (Z * ButtonModel.t) :=
  filter (fun x => Z.eqb (fst x) pin) (listeners g).

(** ** Invariants of computations *)

(** [emits p m]: [m] only extends the trace, and every event it adds
    satisfies [p]. *)
Definition emits {A : Type} (p : event -> bool) (m : M A) : Prop :=
  forall w, exists l,
    events (snd (m w)) = events w ++ l /\ forallb p l = true.

(** [keeps g m]: [m] leaves the observation [g] of the GPIO facility as it
    found it. *)
Definition keeps {A X : Type} (g : gpio_state -> X) (m : M A) : Prop :=
  forall w, g (gpio (snd (m w))) = g (gpio w).

Definition client_eqb (a b : client) : bool :=
  Nat.eqb (client_id a) (client_id b) && String.eqb (client_db a) (client_db b).

(** What [flash_led] may add to the trace. *)
Definition flashing (e : event) : bool :=
  match e with
  | Log DEBUG TurningLedOn | Log DEBUG TurnedLedOff => true
  | Ev (GPIO_output _ _) => true
  | Ev (time_sleep _) => true
  | _ => false
  end.

(** What handling presses through client [c] may add to the trace: log
    records, writes through [c], LED output and sleeps. *)
Definition pressing (c : client) (e : event) : bool :=
  match e with
  | Log _ _ => true
  | Ev (write_points c' _) => client_eqb c' c
  | Ev (GPIO_output _ _) => true
  | Ev (time_sleep _) => true
  | _ => false
  end.

(** What the loop of [init_gpio] over the buttons may add to the trace. *)
Definition claiming (e : event) : bool :=
  match e with
  | Ev (GPIO_setup _ _ _) | Ev (GPIO_add_event_detect _ _ _ _) => true
  | _ => false
  end.

(** What [init_gpio] may add to the trace. *)
Definition configuring (e : event) : bool :=
  match e with
  | Log INFO GpioInitComplete => true
  | Ev (GPIO_setmode _) | Ev (GPIO_setup _ _ _)
  | Ev (GPIO_add_event_detect _ _ _ _) | Ev (GPIO_output _ _) => true
  | _ => false
  end.

(** What the process may add to the trace between the construction of the
    handler and the teardown. *)
Definition running (c : client) (e : event) : bool :=
  configuring e || pressing c e.

(** The [bouncetime] argument of an [add_event_detect] is [b]. *)
Definition driver_bouncetime (b : Z) (e : event) : bool :=
  match e with
  | Ev (GPIO_add_event_detect _ _ _ b') => Z.eqb b' b
  | _ => true
  end.

(** ** Inside one press *)

(** The dictionary [measurement] built for [button] at instant [t]. *)
Definition measurement_of (icfg : InfluxdbModel.t) (button : ButtonModel.t)
           (t : Z) : point :=
  mk_point (InfluxdbModel.measurement_name icfg)
           [(ButtonModel.label button, ButtonModel.value button)] t.

(** The world in which the upload callback, entered in [w], calls
    [write_points]. *)
Definition at_write (icfg : InfluxdbModel.t) (button : ButtonModel.t)
           (w : world) : world :=
  snd (logger DEBUG (UploadingMeasurement (measurement_of icfg button (now w))) w).

(** The world in which [callback_for_button button handler pin], called in
    [w], enters [handler]. *)
Definition entered (button : ButtonModel.t) (pin : Z) (w : world) : world :=
  snd ((logger INFO (ButtonWasPressed (ButtonModel.label button) pin) ;;
        (if negb (Z.eqb pin (ButtonModel.pin button))
         then logger ERROR (CallbackGotEventFor (ButtonModel.pin button) pin)
         else ret tt)) w).

(** The events of one upload, entered in world [w]. *)
Definition upload_events (env : Env) (icfg : InfluxdbModel.t) (c : client)
           (button : ButtonModel.t) (w : world) : list event :=
  let p := measurement_of icfg button (now w) in
  Log DEBUG (UploadingMeasurement p) :: Ev (write_points c [p]) ::
  match fault env (at_write icfg button w) (write_points c [p]) with
  | Some _ => []
  | None =>
      [Log DEBUG (InfluxdbResponse (write_result env (at_write icfg button w)))]
  end.

(** The edges of one pin. *)
Definition on_pin (pin : Z) (instants : list Z) : list (Z * Z) :=
  map (fun t => (pin, t)) instants.

(** ** The debounce gate of the specification *)

Module DebounceGate.
(** Modelled from the spec: the software gate of the specification (4.2),
    which [main.py] does not contain; it is here to be compared with what
    the code does.  "Accept if last_accepted_instant is unset or
    now - last_accepted_instant >= bouncetime." *)
Definition accept (bouncetime : Z) (last_accepted_instant : option Z)
           (now : Z) : bool :=
  match last_accepted_instant with
  | None => true
  | Some l => bouncetime <=? now - l
  end.

(** The instants the gate lets through. *)
Fixpoint accepted (bouncetime : Z) (last : option Z) (instants : list Z)
  : list Z :=
  match instants with
  | [] => []
  | t :: rest =>
      if accept bouncetime last t
      then t :: accepted bouncetime (Some t) rest
      else accepted bouncetime last rest
  end.
End DebounceGate.

(** ** Handlers on two threads *)

(** The calls of a thread that runs [m] from instant [start] on its own
    clock, in the state of the facility found in [w]. *)
Definition thread (m : M unit) (start : Z) (w : world) : list (Z * event) :=
  let w0 := mk_world (trace w) start (gpio w) in
  timed_emitted w0 (snd (m w0)).

(** Two timed sequences of calls, in the order of their instants. *)
Fixpoint merge (a b : list (Z * event)) {struct a} : list (Z * event) :=
  match a with
  | [] => b
  | x :: a' =>
      (fix inner (b : list (Z * event)) : list (Z * event) :=
         match b with
         | [] => a
         | y :: b' =>
             if fst x <=? fst y then x :: merge a' b else y :: inner b'
         end) b
  end.

(** Two handlers on two threads, started at [t1] and [t2]. *)
Definition concurrently (m1 : M unit) (t1 : Z) (m2 : M unit) (t2 : Z)
           (w : world) : list (Z * event) :=
  merge (thread m1 t1 w) (thread m2 t2 w).

(** ** Configurations as YAML mappings *)

(** The mapping that carries every key of a validated model. *)
Definition button_to_raw (b : ButtonModel.t) : ButtonModel.raw :=
  ButtonModel.mk_raw (Some (ButtonModel.pin b)) (Some (ButtonModel.label b))
                     (Some (ButtonModel.value b)).

Definition led_to_raw (l : LedModel.t) : LedModel.raw :=
  LedModel.mk_raw (Some (LedModel.pin l)) (Some (LedModel.flash_time_ms l)).

Definition influxdb_to_raw (i : InfluxdbModel.t) : InfluxdbModel.raw :=
  InfluxdbModel.mk_raw (Some (InfluxdbModel.database_name i))
                       (Some (InfluxdbModel.measurement_name i)).

(** A section that is [None] in the model is a key absent from the mapping. *)
Definition to_raw (c : OverallModel.t) : OverallModel.raw :=
  OverallModel.mk_raw
    (option_map (map button_to_raw) (OverallModel.buttons c))
    (option_map led_to_raw (OverallModel.led c))
    (Some (OverallModel.bouncetime c))
    (option_map influxdb_to_raw (OverallModel.influxdb c)).

(** ** Worlds and environments *)

(** The process starts at instant 0 with nothing claimed. *)
Definition boot : world := mk_world [] 0 gpio_released.

(** An environment in which no library call fails. *)
Definition quiet : Env :=
  mk_env (fun _ _ => None) (fun _ => true) (fun _ => 0).

(** The store accepts connections but every [write_points] raises. *)
Definition write_fails : Env :=
  mk_env (fun _ c => match c with
                     | write_points _ _ => Some InfluxDBError
                     | _ => None
                     end)
         (fun _ => true) (fun _ => 0).

(** The store cannot be reached: [create_database] raises. *)
Definition store_down : Env :=
  mk_env (fun _ c => match c with
                     | create_database _ _ => Some InfluxDBError
                     | _ => None
                     end)
         (fun _ => true) (fun _ => 0).



(** ** Sample data *)

Definition happy : ButtonModel.t := ButtonModel.mk 5 "happy" 1.

Definition sad : ButtonModel.t := ButtonModel.mk 7 "sad" (-1).

Definition mood_db : InfluxdbModel.t := InfluxdbModel.mk "mood" "pi_mood".

Definition client0 : client := mk_client 0 "mood".

(** The scenario of the specification: LED on pin 6 for 200 ms, bouncetime
    200 ms. *)
Definition demo : OverallModel.t :=
  OverallModel.mk (Some [happy; sad]) (Some (LedModel.mk 6 200)) 200
                  (Some mood_db).

(** The same with a flash of 10 ms. *)
Definition quick_demo : OverallModel.t :=
  OverallModel.mk (Some [happy; sad]) (Some (LedModel.mk 6 10)) 200
                  (Some mood_db).


(** A mapping without the [led] key. *)
Definition no_led : OverallModel.raw :=
  OverallModel.mk_raw (Some [button_to_raw happy; button_to_raw sad]) None
                      (Some 200) (Some (influxdb_to_raw mood_db)).

(** ** Further observations *)

(** Every required key of the mapping is there. *)
Definition button_complete (r : ButtonModel.raw) : bool :=
  match ButtonModel.raw_pin r, ButtonModel.raw_label r,
        ButtonModel.raw_value r with
  | Some _, Some _, Some _ => true
  | _, _, _ => false
  end.

Definition led_complete (r : LedModel.raw) : bool :=
  match LedModel.raw_pin r with Some _ => true | None => false end.

Definition influxdb_complete (r : InfluxdbModel.raw) : bool :=
  match InfluxdbModel.raw_database_name r with
  | Some _ => true
  | None => false
  end.

(** Every section that is there has its required keys. *)
Definition raw_complete (r : OverallModel.raw) : bool :=
  match OverallModel.raw_buttons r with
  | Some bs => forallb button_complete bs
  | None => true
  end
  && match OverallModel.raw_led r with
     | Some l => led_complete l
     | None => true
     end
  && match OverallModel.raw_influxdb r with
     | Some i => influxdb_complete i
     | None => true
     end.

(** The level last written to [pin], if any. *)
Definition level_of (pin : Z) (g : gpio_state) : option level :=
  option_map snd (find (fun x => Z.eqb (fst x) pin) (levels g)).

(** The buttons of a configuration ([None] read as no button). *)
Definition buttons_of (config : OverallModel.t) : list ButtonModel.t :=
  match OverallModel.buttons config with Some bs => bs | None => [] end.

(** The listener that [init_gpio] arms for a button. *)
Definition listener_of (b : ButtonModel.t) : Z * ButtonModel.t :=
  (ButtonModel.pin b, b).

(** The two calls of [init_gpio] for a button. *)
Definition button_calls (bouncetime : Z) (b : ButtonModel.t) : list event :=
  [Ev (GPIO_setup (ButtonModel.pin b) IN PUD_DOWN);
   Ev (GPIO_add_event_detect (ButtonModel.pin b) RISING b bouncetime)].

(** What a start that nothing refuses adds to the trace, from the
    construction of the client through client [c] to the end of
    [init_gpio]. *)
Definition startup_events (buttons : list ButtonModel.t) (led : LedModel.t)
           (bouncetime : Z) (icfg : InfluxdbModel.t) (c : client)
  : list event :=
  Ev (InfluxDBClient (InfluxdbModel.database_name icfg))
  :: Ev (create_database c (InfluxdbModel.database_name icfg))
  :: Ev (GPIO_setmode BOARD)
  :: flat_map (button_calls bouncetime) buttons
  ++ [Ev (GPIO_setup (LedModel.pin led) OUT PUD_OFF);
      Ev (GPIO_output (LedModel.pin led) LOW);
      Log INFO GpioInitComplete].

(** The same configuration with another bouncetime. *)
Definition with_bouncetime (config : OverallModel.t) (bouncetime : Z)
  : OverallModel.t :=
  OverallModel.mk (OverallModel.buttons config) (OverallModel.led config)
                  bouncetime (OverallModel.influxdb config).

(** A [GPIO.output] goes to the LED pin of the configuration. *)
Definition drives_led_only (config : OverallModel.t) (e : event) : bool :=
  match e with
  | Ev (GPIO_output pin _) =>
      match OverallModel.led config with
      | Some l => Z.eqb pin (LedModel.pin l)
      | None => false
      end
  | _ => true
  end.

(** A pin is claimed as the input of a configured button, pulled down and
    listened to for rising edges with the configured bouncetime, or as the
    output of the LED; the numbering is BOARD. *)
Definition claims_configured_pins (config : OverallModel.t) (e : event)
  : bool :=
  match e with
  | Ev (GPIO_setmode m) => match m with BOARD => true | BCM => false end
  | Ev (GPIO_setup pin IN pud) =>
      match pud with PUD_DOWN => true | _ => false end
      && existsb (fun b => Z.eqb pin (ButtonModel.pin b)) (buttons_of config)
  | Ev (GPIO_setup pin OUT _) =>
      match OverallModel.led config with
      | Some l => Z.eqb pin (LedModel.pin l)
      | None => false
      end
  | Ev (GPIO_add_event_detect pin k b bt) =>
      match k with RISING => true | _ => false end
      && Z.eqb pin (ButtonModel.pin b)
      && Z.eqb bt (OverallModel.bouncetime config)
      && existsb (fun b' => Z.eqb (ButtonModel.pin b) (ButtonModel.pin b'))
                 (buttons_of config)
  | _ => true
  end.

(** A record at error severity is the pin mismatch of
    [callback_for_button], and its two pins differ. *)
Definition error_is_mismatch (e : event) : bool :=
  match e with
  | Log ERROR (CallbackGotEventFor button_pin pin) => negb (Z.eqb pin button_pin)
  | Log ERROR _ => false
  | _ => true
  end.

(** A sleep is the 300 s of the main loop or the flash of the LED. *)
Definition sleeps_as_configured (config : OverallModel.t) (e : event) : bool :=
  match e with
  | Ev (time_sleep ms) =>
      Z.eqb ms 300000
      || match OverallModel.led config with
         | Some l => Z.eqb ms (LedModel.flash_time_ms l)
         | None => false
         end
  | _ => true
  end.

(** Everything [main] may do to the outside, for a configuration. *)
Definition footprint (config : OverallModel.t) (e : event) : bool :=
  drives_led_only config e && claims_configured_pins config e
  && error_is_mismatch e && sleeps_as_configured config e.

Definition is_still_alive (e : event) : bool :=
  match e with Log DEBUG StillAlive => true | _ => false end.

(** The returns of [time.sleep(300)] before the first signal. *)
Fixpoint wakes (script : list stimulus) : nat :=
  match script with
  | [] => 0%nat
  | Wake :: rest => S (wakes rest)
  | Edge _ _ :: rest => wakes rest
  | Signal _ :: _ => 0%nat
  | Terminate :: _ => 0%nat
  end.

(** The facility and the store refuse nothing. *)
Definition cooperative (env : Env) : Prop :=
  forall w c, fault env w c = None.

(** The field of a point is the label and value of one of the buttons. *)
Definition field_of_a_button (bs : list ButtonModel.t) (p : point) : bool :=
  match fields p with
  | [(l, v)] =>
      existsb (fun b => String.eqb l (ButtonModel.label b)
                        && Z.eqb v (ButtonModel.value b)) bs
  | _ => false
  end.

(** A [write_points] hands over one point, under the configured measurement
    name, for one of the buttons. *)
Definition writes_for_a_button (icfg : InfluxdbModel.t)
           (bs : list ButtonModel.t) (e : event) : bool :=
  match e with
  | Ev (write_points _ pts) =>
      match pts with
      | [p] => String.eqb (measurement p) (InfluxdbModel.measurement_name icfg)
               && field_of_a_button bs p
      | _ => false
      end
  | _ => true
  end.

(** * Reasoning about traces *)

Lemma events_snoc (tr : list (Z * event)) (t : Z) (e : event) (g : gpio_state)
      (n : Z) :
  events (mk_world (tr ++ [(t, e)]) n g) = map snd tr ++ [e].
Proof. unfold events; simpl. now rewrite map_app. Qed.

Lemma emitted_app (w w' : world) (l : list event) :
  events w' = events w ++ l -> emitted w w' = l.
Proof.
  intros H. unfold emitted. rewrite H.
  rewrite skipn_app, skipn_all, Nat.sub_diag. reflexivity.
Qed.

Lemma cleanups_app (a b : list event) :
  cleanups (a ++ b) = (cleanups a + cleanups b)%nat.
Proof. unfold cleanups. now rewrite filter_app, length_app. Qed.

Lemma submitted_app (a b : list event) :
  submitted (a ++ b) = submitted a ++ submitted b.
Proof.
  induction a as [|[c|s m] a IH]; simpl; auto.
  destruct c; simpl; auto. now rewrite IH, app_assoc.
Qed.

Lemma writers_app (a b : list event) :
  writers (a ++ b) = writers a ++ writers b.
Proof.
  induction a as [|[c|s m] a IH]; simpl; auto.
  destruct c; simpl; auto. now rewrite IH.
Qed.

Lemma filter_none {A : Type} (q : A -> bool) (l : list A) :
  forallb (fun x => negb (q x)) l = true -> filter q l = [].
Proof.
  induction l as [|x l IH]; simpl; auto.
  intros H. apply andb_prop in H as [Hx Hl].
  destruct (q x); [discriminate|auto].
Qed.

Lemma forallb_weaken {A : Type} (p q : A -> bool) (l : list A) :
  (forall x, p x = true -> q x = true) ->
  forallb p l = true -> forallb q l = true.
Proof.
  intros Hpq. induction l as [|x l IH]; simpl; auto.
  intros H. apply andb_prop in H as [Hx Hl].
  now rewrite (Hpq _ Hx), IH.
Qed.

Section Emits.

Context (env : Env) (p : event -> bool).

Lemma emits_silent {A : Type} (m : M A) :
  (forall w, events (snd (m w)) = events w) -> emits p m.
Proof.
  intros H w. exists []. now rewrite H, app_nil_r.
Qed.

Lemma emits_ret {A : Type} (a : A) : emits p (ret a).
Proof. now apply emits_silent. Qed.

Lemma emits_raise {A : Type} (e : exn) : emits p (@raise A e).
Proof. now apply emits_silent. Qed.

Lemma emits_lift {A : Type} (o : outcome A) : emits p (lift o).
Proof. now apply emits_silent. Qed.

Lemma emits_attr {A : Type} (x : option A) : emits p (attr x).
Proof. destruct x; [apply emits_ret | apply emits_raise]. Qed.

Lemma emits_iter {A : Type} (x : option (list A)) : emits p (iter x).
Proof. destruct x; [apply emits_ret | apply emits_raise]. Qed.

Lemma emits_utcnow : emits p utcnow.
Proof. now apply emits_silent. Qed.

Lemma emits_at_instant (t : Z) : emits p (at_instant t).
Proof. now apply emits_silent. Qed.

Lemma emits_one {A : Type} (m : M A) (e : event) :
  p e = true ->
  (forall w, events (snd (m w)) = events w ++ [e]) -> emits p m.
Proof.
  intros He H w. exists [e]. split; [apply H | simpl; now rewrite He].
Qed.

Lemma emits_emit (e : event) : p e = true -> emits p (emit e).
Proof.
  intros He. apply emits_one with (e := e); auto.
  intros w. apply events_snoc.
Qed.

Lemma emits_logger (s : severity) (m : message) :
  p (Log s m) = true -> emits p (logger s m).
Proof. apply emits_emit. Qed.

Lemma emits_extcall (c : call) (effect : gpio_state -> gpio_state) :
  p (Ev c) = true -> emits p (extcall env c effect).
Proof.
  intros He. apply emits_one with (e := Ev c); auto.
  intros w. unfold extcall. destruct (fault env w c); apply events_snoc.
Qed.

Lemma emits_cleanup : p (Ev GPIO_cleanup) = true -> emits p GPIO_cleanup_.
Proof.
  intros He. apply emits_one with (e := Ev GPIO_cleanup); auto.
  intros w. apply events_snoc.
Qed.

Lemma emits_sleep (ms : Z) :
  p (Ev (time_sleep ms)) = true -> emits p (time_sleep_ env ms).
Proof.
  intros He w. unfold time_sleep_.
  destruct (float_max <=? Z.abs ms).
  - exists []. now rewrite app_nil_r.
  - exists [Ev (time_sleep ms)]. split; [|simpl; now rewrite He].
    destruct (sleep_max <? Z.abs ms); [apply events_snoc|].
    destruct (ms <? 0); [apply events_snoc|].
    destruct (fault env w _); apply events_snoc.
Qed.

Lemma emits_bind {A B : Type} (m : M A) (k : A -> M B) :
  emits p m -> (forall a, emits p (k a)) -> emits p (bind m k).
Proof.
  intros Hm Hk w. unfold bind.
  destruct (Hm w) as [l [El Pl]].
  destruct (m w) as [[a|e|] w1]; simpl in *.
  - destruct (Hk a w1) as [l' [El' Pl']].
    exists (l ++ l'). rewrite El', El, app_assoc. split; auto.
    rewrite forallb_app, Pl, Pl'. reflexivity.
  - exists l. auto.
  - exists l. auto.
Qed.

Lemma emits_try_finally {A : Type} (m : M A) (fin : M unit) :
  emits p m -> emits p fin -> emits p (try_finally m fin).
Proof.
  intros Hm Hf w. unfold try_finally.
  destruct (Hm w) as [l [El Pl]].
  destruct (m w) as [[a|e|] w1]; simpl in *;
    try (exists l; now auto);
    destruct (Hf w1) as [l' [El' Pl']];
    exists (l ++ l');
    (split; [| now rewrite forallb_app, Pl, Pl']);
    destruct (fin w1) as [[[]|e'|] w2]; simpl in *;
    now rewrite El', El, app_assoc.
Qed.

Lemma emits_invoke (cb : M unit) : emits p cb -> emits p (invoke cb).
Proof. intros H w. exact (H w). Qed.

Lemma emits_dep {A : Type} (f : world -> M A) :
  (forall v, emits p (f v)) -> emits p (fun w => f w w).
Proof. intros H w. exact (H w w). Qed.

Lemma emits_new_client (database : string) :
  p (Ev (InfluxDBClient database)) = true ->
  emits p (InfluxDBClient_ env database).
Proof.
  intros He w. unfold InfluxDBClient_.
  destruct (emits_extcall (InfluxDBClient database) (fun g => g) He w)
    as [l [El Pl]].
  destruct (extcall env (InfluxDBClient database) (fun g => g) w)
    as [[a|e|] w1]; exists l; auto.
Qed.

Lemma emits_write (c : client) (pts : list point) :
  p (Ev (write_points c pts)) = true -> emits p (write_points_ env c pts).
Proof.
  intros He w. unfold write_points_.
  destruct (emits_extcall (write_points c pts) (fun g => g) He w)
    as [l [El Pl]].
  destruct (extcall env (write_points c pts) (fun g => g) w)
    as [[a|e|] w1]; exists l; auto.
Qed.

End Emits.

Lemma emits_weaken {A : Type} (p q : event -> bool) (m : M A) :
  (forall e, p e = true -> q e = true) -> emits p m -> emits q m.
Proof.
  intros Hpq Hm w. destruct (Hm w) as [l [El Pl]].
  exists l. split; auto. now apply forallb_weaken with (p := p).
Qed.

Ltac emits_step :=
  match goal with
  | |- emits _ (bind _ _) => apply emits_bind; [|intros ?]
  | |- emits _ (ret _) => apply emits_ret
  | |- emits _ (raise _) => apply emits_raise
  | |- emits _ (lift _) => apply emits_lift
  | |- emits _ (attr _) => apply emits_attr
  | |- emits _ (iter _) => apply emits_iter
  | |- emits _ utcnow => apply emits_utcnow
  | |- emits _ (at_instant _) => apply emits_at_instant
  | |- emits _ (logger _ _) => apply emits_logger
  | |- emits _ (emit _) => apply emits_emit
  | |- emits _ (extcall _ _ _) => apply emits_extcall
  | |- emits _ GPIO_cleanup_ => apply emits_cleanup
  | |- emits _ (time_sleep_ _ _) => apply emits_sleep
  | |- emits _ (InfluxDBClient_ _ _) => apply emits_new_client
  | |- emits _ (write_points_ _ _ _) => apply emits_write
  | |- emits _ (try_finally _ _) => apply emits_try_finally
  | |- emits _ (invoke _) => apply emits_invoke
  | |- emits _ (if ?b then _ else _) => destruct b
  end.

Ltac emits_auto := repeat emits_step; try reflexivity; auto.

Lemma client_eqb_refl (c : client) : client_eqb c c = true.
Proof.
  unfold client_eqb. now rewrite Nat.eqb_refl, String.eqb_refl.
Qed.

Lemma client_eqb_eq (a b : client) : client_eqb a b = true -> a = b.
Proof.
  destruct a as [i d], b as [j d']. unfold client_eqb; simpl.
  intros H. apply andb_prop in H as [Hi Hd].
  apply Nat.eqb_eq in Hi. apply String.eqb_eq in Hd. now subst.
Qed.

Section ProgramEmits.

Context (env : Env).

Lemma influxdb_callback_emits config c button :
  emits (pressing c) (influxdb_callback env config c button).
Proof.
  unfold influxdb_callback. emits_auto. simpl. apply client_eqb_refl.
Qed.

Lemma flash_led_flashing led : emits flashing (flash_led env led).
Proof. unfold flash_led, GPIO_output_. emits_auto. Qed.

Lemma flash_led_emits c led : emits (pressing c) (flash_led env led).
Proof.
  apply emits_weaken with (p := flashing); [|apply flash_led_flashing].
  intros [[]|[] []]; simpl; congruence.
Qed.

Lemma button_callback_emits config icfg c button :
  emits (pressing c)
        (button_callback env config (influxdb_callback env icfg c) button).
Proof.
  unfold button_callback. emits_auto.
  - apply influxdb_callback_emits.
  - apply flash_led_emits.
Qed.

Lemma callback_for_button_emits c button handler pin :
  (forall b, emits (pressing c) (handler b)) ->
  emits (pressing c) (callback_for_button button handler pin).
Proof. intros H. unfold callback_for_button. emits_auto. Qed.

Lemma deliver_to_emits c handler pin ls :
  (forall b, emits (pressing c) (handler b)) ->
  emits (pressing c) (deliver_to handler pin ls).
Proof.
  intros H. induction ls as [|[q button] ls IH]; simpl; emits_auto.
  now apply callback_for_button_emits.
Qed.

Lemma deliver_emits c handler pin t :
  (forall b, emits (pressing c) (handler b)) ->
  emits (pressing c) (deliver handler pin t).
Proof.
  intros H. unfold deliver. emits_auto.
  apply emits_dep with (f := fun v => deliver_to handler pin (listeners (gpio v))).
  intros v. now apply deliver_to_emits.
Qed.

Lemma keep_alive_emits c handler script :
  (forall b, emits (pressing c) (handler b)) ->
  forall started, emits (pressing c) (keep_alive handler started script).
Proof.
  intros H. induction script as [|[pin t| |e|] rest IH]; intros started; simpl.
  - now apply emits_silent.
  - emits_auto. now apply deliver_emits.
  - emits_auto.
    apply emits_dep with
      (f := fun v => emit (Ev (time_sleep 300000)) ;;
                     keep_alive handler (now v) rest).
    intros v. emits_auto.
  - emits_auto.
  - now apply emits_silent.
Qed.

Lemma main_loop_emits c handler script :
  (forall b, emits (pressing c) (handler b)) ->
  emits (pressing c) (main_loop handler script).
Proof.
  intros H. unfold main_loop.
  apply emits_dep with
    (f := fun v => emit (Ev (time_sleep 300000)) ;;
                   keep_alive handler (now v) script).
  intros v. emits_auto. now apply keep_alive_emits.
Qed.

Lemma setup_buttons_emits bouncetime buttons :
  emits claiming (setup_buttons env bouncetime buttons).
Proof.
  induction buttons as [|b rest IH]; simpl;
    unfold GPIO_setup_, GPIO_add_event_detect_; emits_auto.
Qed.

Lemma init_gpio_emits config handler :
  emits configuring (init_gpio env config handler).
Proof.
  unfold init_gpio, GPIO_setmode_, GPIO_setup_, GPIO_output_. emits_auto.
  apply emits_weaken with (p := claiming); [|apply setup_buttons_emits].
  intros [[]|[] []]; simpl; congruence.
Qed.

End ProgramEmits.

Section Keeps.

Context (env : Env) {X : Type} (g : gpio_state -> X).

Lemma keeps_same {A : Type} (m : M A) :
  (forall w, gpio (snd (m w)) = gpio w) -> keeps g m.
Proof. intros H w. now rewrite H. Qed.

Lemma keeps_ret {A : Type} (a : A) : keeps g (ret a).
Proof. now apply keeps_same. Qed.

Lemma keeps_raise {A : Type} (e : exn) : keeps g (@raise A e).
Proof. now apply keeps_same. Qed.

Lemma keeps_attr {A : Type} (x : option A) : keeps g (attr x).
Proof. destruct x; now apply keeps_same. Qed.

Lemma keeps_iter {A : Type} (x : option (list A)) : keeps g (iter x).
Proof. destruct x; now apply keeps_same. Qed.

Lemma keeps_utcnow : keeps g utcnow.
Proof. now apply keeps_same. Qed.

Lemma keeps_at_instant (t : Z) : keeps g (at_instant t).
Proof. now apply keeps_same. Qed.

Lemma keeps_logger (s : severity) (m : message) : keeps g (logger s m).
Proof. now apply keeps_same. Qed.

Lemma keeps_sleep (ms : Z) : keeps g (time_sleep_ env ms).
Proof.
  apply keeps_same. intros w. unfold time_sleep_.
  destruct (float_max <=? Z.abs ms); [reflexivity|].
  destruct (sleep_max <? Z.abs ms); [reflexivity|].
  destruct (ms <? 0); [reflexivity|].
  now destruct (fault env w _).
Qed.

Lemma keeps_extcall (c : call) (effect : gpio_state -> gpio_state) :
  (forall s, g (effect s) = g s) -> keeps g (extcall env c effect).
Proof.
  intros H w. unfold extcall. destruct (fault env w c); simpl; auto.
Qed.

Lemma keeps_write (c : client) (pts : list point) :
  keeps g (write_points_ env c pts).
Proof.
  intros w. unfold write_points_, extcall.
  now destruct (fault env w (write_points c pts)).
Qed.

Lemma keeps_bind {A B : Type} (m : M A) (k : A -> M B) :
  keeps g m -> (forall a, keeps g (k a)) -> keeps g (bind m k).
Proof.
  intros Hm Hk w. unfold bind. specialize (Hm w).
  destruct (m w) as [[a|e|] w1]; simpl in *; auto.
  now rewrite Hk.
Qed.

Lemma keeps_invoke (cb : M unit) : keeps g cb -> keeps g (invoke cb).
Proof. intros H w. exact (H w). Qed.

End Keeps.

Ltac keeps_step :=
  match goal with
  | |- keeps _ (bind _ _) => apply keeps_bind; [|intros ?]
  | |- keeps _ (ret _) => apply keeps_ret
  | |- keeps _ (raise _) => apply keeps_raise
  | |- keeps _ (attr _) => apply keeps_attr
  | |- keeps _ (iter _) => apply keeps_iter
  | |- keeps _ utcnow => apply keeps_utcnow
  | |- keeps _ (at_instant _) => apply keeps_at_instant
  | |- keeps _ (logger _ _) => apply keeps_logger
  | |- keeps _ (time_sleep_ _ _) => apply keeps_sleep
  | |- keeps _ (extcall _ _ _) => apply keeps_extcall; intros ?
  | |- keeps _ (write_points_ _ _ _) => apply keeps_write
  | |- keeps _ (invoke _) => apply keeps_invoke
  | |- keeps _ (if ?b then _ else _) => destruct b
  end.

Ltac keeps_auto := repeat keeps_step; try reflexivity; auto.

(** * GPIO initialisation *)

Lemma setup_buttons_keeps_mode (env : Env) (bouncetime : Z)
      (buttons : list ButtonModel.t) :
  keeps mode (setup_buttons env bouncetime buttons).
Proof.
  induction buttons as [|b rest IH]; simpl;
    unfold GPIO_setup_, GPIO_add_event_detect_; keeps_auto.
Qed.

(** C9: whatever the configuration and whatever the libraries answer, the
    first thing [init_gpio] does is [GPIO.setmode(GPIO.BOARD)]; every pin is
    configured after it, the numbering mode is not set again, and, unless
    the facility refuses the call (then [init_gpio] raises at once), the
    facility is in BOARD mode when [init_gpio] is done. *)
Theorem init_gpio_sets_board_mode_first :
  forall (env : Env) (physical_config : OverallModel.t)
         (button_handler : ButtonModel.t -> M unit) (w : world),
  exists rest,
    emitted w (snd (init_gpio env physical_config button_handler w))
    = Ev (GPIO_setmode BOARD) :: rest
    /\ forallb (fun e => negb (is_setmode e)) rest = true
    /\ match fault env w (GPIO_setmode BOARD) with
       | Some e =>
           rest = []
           /\ fst (init_gpio env physical_config button_handler w) = Raise e
       | None =>
           mode (gpio (snd (init_gpio env physical_config button_handler w)))
           = Some BOARD
       end.
Proof.
  intros env cfg handler w.
  set (tail := fun _ : unit =>
         buttons <- iter (OverallModel.buttons cfg) ;;
         setup_buttons env (OverallModel.bouncetime cfg) buttons ;;
         led <- attr (OverallModel.led cfg) ;;
         GPIO_setup_ env (LedModel.pin led) OUT PUD_OFF ;;
         GPIO_output_ env (LedModel.pin led) LOW ;;
         logger INFO GpioInitComplete).
  change (init_gpio env cfg handler) with (bind (GPIO_setmode_ env BOARD) tail).
  unfold bind at 1 2 3, GPIO_setmode_, extcall.
  destruct (fault env w (GPIO_setmode BOARD)) as [e|] eqn:F.
  - exists []. simpl. repeat split.
    apply emitted_app. apply events_snoc.
  - set (w1 := mk_world _ _ _).
    assert (T : emits (fun e => negb (is_setmode e)) (tail tt)).
    { unfold tail, GPIO_setup_, GPIO_output_. emits_auto.
      apply emits_weaken with (p := claiming).
      - intros [[]|[] []]; simpl; congruence.
      - apply setup_buttons_emits. }
    assert (K : keeps mode (tail tt)).
    { unfold tail, GPIO_setup_, GPIO_output_. keeps_auto.
      apply setup_buttons_keeps_mode. }
    destruct (T w1) as [l [El Pl]]. exists l. split; [|split].
    + apply emitted_app. rewrite El. unfold w1. rewrite events_snoc.
      now rewrite <- app_assoc.
    + exact Pl.
    + now rewrite K.
Qed.

(** * The per-press handler *)

Lemma callback_for_button_enters (button : ButtonModel.t)
      (handler : ButtonModel.t -> M unit) (pin : Z) (w : world) :
  callback_for_button button handler pin w = handler button (entered button pin w).
Proof.
  unfold callback_for_button, entered, bind, logger, emit, ret.
  now destruct (negb (pin =? ButtonModel.pin button)).
Qed.

Lemma entered_now (button : ButtonModel.t) (pin : Z) (w : world) :
  now (entered button pin w) = now w.
Proof.
  unfold entered, bind, logger, emit, ret.
  now destruct (negb (pin =? ButtonModel.pin button)).
Qed.

Lemma influxdb_callback_run (env : Env) (icfg : InfluxdbModel.t) (c : client)
      (button : ButtonModel.t) (w : world) :
  let p := measurement_of icfg button (now w) in
  let w1 := at_write icfg button w in
  let back := now w + Z.max 0 (round_trip env w1) in
  influxdb_callback env (Some icfg) c button w =
  match fault env w1 (write_points c [p]) with
  | Some e =>
      (Raise e,
       mk_world (trace w ++ [(now w, Log DEBUG (UploadingMeasurement p));
                             (now w, Ev (write_points c [p]))])
                back (gpio w))
  | None =>
      (Ret tt,
       mk_world (trace w ++ [(now w, Log DEBUG (UploadingMeasurement p));
                             (now w, Ev (write_points c [p]));
                             (back, Log DEBUG
                                        (InfluxdbResponse (write_result env w1)))])
                back (gpio w))
  end.
Proof.
  intros p w1 back. subst p w1 back.
  unfold influxdb_callback, at_write, measurement_of, attr, utcnow, bind, ret,
    write_points_, extcall, elapse, logger, emit; simpl.
  destruct (fault env _ _); simpl; rewrite <- !app_assoc; reflexivity.
Qed.

Lemma submitted_none (l : list event) :
  forallb (fun e => negb (is_write e)) l = true -> submitted l = [].
Proof.
  induction l as [|[c|s m] l IH]; simpl; auto.
  destruct c; simpl; auto; discriminate.
Qed.

Lemma writers_none (l : list event) :
  forallb (fun e => negb (is_write e)) l = true -> writers l = [].
Proof.
  induction l as [|[c|s m] l IH]; simpl; auto.
  destruct c; simpl; auto; discriminate.
Qed.

Lemma flashing_not_write (e : event) :
  flashing e = true -> negb (is_write e) = true.
Proof. destruct e as [[]|[] []]; simpl; congruence. Qed.

Lemma entered_events (button : ButtonModel.t) (pin : Z) (w : world) :
  exists l, events (entered button pin w) = events w ++ l
            /\ forallb (fun e => negb (is_write e)) l = true.
Proof.
  assert (H : emits (fun e => negb (is_write e))
                (logger INFO (ButtonWasPressed (ButtonModel.label button) pin) ;;
                 (if negb (Z.eqb pin (ButtonModel.pin button))
                  then logger ERROR
                         (CallbackGotEventFor (ButtonModel.pin button) pin)
                  else ret tt))) by emits_auto.
  exact (H w).
Qed.

Lemma influxdb_callback_events (env : Env) (icfg : InfluxdbModel.t)
      (c : client) (button : ButtonModel.t) (w : world) :
  events (snd (influxdb_callback env (Some icfg) c button w))
  = events w ++ upload_events env icfg c button w.
Proof.
  rewrite influxdb_callback_run. unfold upload_events.
  destruct (fault env _ _); unfold events; simpl; now rewrite map_app.
Qed.

Lemma button_callback_events (env : Env) (config : OverallModel.t)
      (icfg : InfluxdbModel.t) (c : client) (button : ButtonModel.t)
      (w : world) :
  exists l,
    events (snd (button_callback env config
                   (influxdb_callback env (Some icfg) c) button w))
    = events w ++ upload_events env icfg c button w ++ l
    /\ forallb flashing l = true
    /\ (forall e, fault env (at_write icfg button w)
                    (write_points c [measurement_of icfg button (now w)])
                  = Some e -> l = []).
Proof.
  unfold button_callback, bind.
  pose proof (influxdb_callback_events env icfg c button w) as E.
  pose proof (influxdb_callback_run env icfg c button w) as R.
  simpl in R.
  destruct (fault env (at_write icfg button w) _) as [e|] eqn:F.
  - rewrite R in *. exists []. rewrite app_nil_r. simpl in *. auto.
  - rewrite R in *.
    match goal with
    | |- context [flash_led env ?led ?w1] =>
        destruct (flash_led_flashing env led w1) as [l [El Pl]]
    end.
    exists l. rewrite El. simpl in E. rewrite E, <- app_assoc.
    repeat split; auto. discriminate.
Qed.

Lemma press_events (env : Env) (config : OverallModel.t)
      (icfg : InfluxdbModel.t) (c : client) (button : ButtonModel.t) (pin : Z)
      (w : world) :
  exists l,
    events (snd (callback_for_button button
                   (button_callback env config
                      (influxdb_callback env (Some icfg) c)) pin w))
    = events w ++ l
    /\ submitted l = [measurement_of icfg button (now w)]
    /\ writers l = [c].
Proof.
  rewrite callback_for_button_enters.
  destruct (entered_events button pin w) as [l0 [E0 P0]].
  destruct (button_callback_events env config icfg c button
              (entered button pin w)) as [l [E [P _]]].
  rewrite E0, <- app_assoc in E.
  eexists. split; [exact E|].
  assert (Pl : forallb (fun e => negb (is_write e)) l = true).
  { apply forallb_weaken with (p := flashing); auto.
    apply flashing_not_write. }
  rewrite !submitted_app, !writers_app.
  rewrite (submitted_none _ P0), (submitted_none _ Pl).
  rewrite (writers_none _ P0), (writers_none _ Pl).
  unfold upload_events. rewrite entered_now.
  destruct (fault env _ _); simpl; auto.
Qed.




(** * Upload failures *)

(** C2 (as the code has it): when [write_points] raises, the exception leaves
    the upload callback and the composed handler unhandled.  The handler has
    logged the measurement at debug severity and made the call, and nothing
    more: no record at error severity, no flash.  The registered callback
    raises the same exception into the facility that called it. *)
Theorem upload_failure_propagates :
  forall (env : Env) (config : OverallModel.t) (icfg : InfluxdbModel.t)
         (c : client) (button : ButtonModel.t) (pin : Z) (w0 : world)
         (e : exn),
    let w := entered button pin w0 in
    let p := measurement_of icfg button (now w0) in
    let handler := button_callback env config
                     (influxdb_callback env (Some icfg) c) in
    fault env (at_write icfg button w) (write_points c [p]) = Some e ->
    fst (callback_for_button button handler pin w0) = Raise e
    /\ fst (handler button w) = Raise e
    /\ emitted w (snd (handler button w))
       = [Log DEBUG (UploadingMeasurement p); Ev (write_points c [p])].
Proof.
  intros env config icfg c button pin w0 e w p handler F.
  subst p handler. rewrite <- (entered_now button pin w0) in *. fold w in F |- *.
  assert (R : button_callback env config (influxdb_callback env (Some icfg) c)
                button w
              = influxdb_callback env (Some icfg) c button w).
  { unfold button_callback, bind.
    rewrite (influxdb_callback_run env icfg c button w). simpl.
    now rewrite F. }
  rewrite callback_for_button_enters. fold w. rewrite R.
  split; [|split].
  - rewrite influxdb_callback_run. simpl. now rewrite F.
  - rewrite influxdb_callback_run. simpl. now rewrite F.
  - apply emitted_app. rewrite influxdb_callback_events.
    unfold upload_events. now rewrite F.
Qed.

Lemma upload_failure_propagates_witness :
  let w := entered happy 5 boot in
  let p := measurement_of mood_db happy 0 in
  let handler := button_callback write_fails demo
                   (influxdb_callback write_fails (Some mood_db) client0) in
  fst (callback_for_button happy handler 5 boot) = Raise InfluxDBError
  /\ fst (handler happy w) = Raise InfluxDBError
  /\ emitted w (snd (handler happy w))
     = [Log DEBUG (UploadingMeasurement p); Ev (write_points client0 [p])].
Proof.
  exact (upload_failure_propagates write_fails demo mood_db client0 happy 5
           boot InfluxDBError eq_refl).
Defined.

(** C2, as stated, fails: with a store that rejects the write, a press on
    the "happy" button raises out of the registered callback, nothing is
    logged at error severity and the LED pin is never driven. *)
Lemma upload_failure_not_contained :
  let handler := button_callback write_fails demo
                   (influxdb_callback write_fails (Some mood_db) client0) in
  let r := callback_for_button happy handler 5 boot in
  fst r = Raise InfluxDBError
  /\ existsb is_error_log (emitted boot (snd r)) = false
  /\ existsb is_output (emitted boot (snd r)) = false.
Proof. vm_compute. repeat split. Qed.

(** * Debounce *)

Lemma deliver_to_none (handler : ButtonModel.t -> M unit) (pin : Z)
      (ls : list (Z * ButtonModel.t)) (w : world) :
  filter (fun x => Z.eqb (fst x) pin) ls = [] ->
  deliver_to handler pin ls w = (Ret tt, w).
Proof.
  induction ls as [|[q b] ls IH]; simpl; auto.
  destruct (q =? pin); [discriminate|].
  intros H. unfold bind, ret. now apply IH.
Qed.

Lemma deliver_to_single (handler : ButtonModel.t -> M unit) (pin : Z)
      (button : ButtonModel.t) (ls : list (Z * ButtonModel.t)) (w : world) :
  filter (fun x => Z.eqb (fst x) pin) ls = [(pin, button)] ->
  deliver_to handler pin ls w
  = invoke (callback_for_button button handler pin) w.
Proof.
  induction ls as [|[q b] ls IH]; simpl; [discriminate|].
  destruct (q =? pin) eqn:Q.
  - intros H. injection H as Hq Hb Hls. subst q b.
    unfold bind, invoke. now apply deliver_to_none.
  - intros H. unfold bind, ret. now apply IH.
Qed.

Lemma press_keeps_listeners (env : Env) (config : OverallModel.t)
      (icfg : option InfluxdbModel.t) (c : client) (button : ButtonModel.t)
      (pin : Z) :
  keeps listeners
        (callback_for_button button
           (button_callback env config (influxdb_callback env icfg c)) pin).
Proof.
  unfold callback_for_button, button_callback, influxdb_callback, flash_led,
    GPIO_output_.
  keeps_auto.
Qed.

Lemma edges_all_handled (env : Env) (config : OverallModel.t)
      (icfg : InfluxdbModel.t) (c : client) (button : ButtonModel.t)
      (instants : list Z) :
  forall w,
    armed_on (ButtonModel.pin button) (gpio w)
    = [(ButtonModel.pin button, button)] ->
    exists l,
      events (snd (deliver_all
                     (button_callback env config
                        (influxdb_callback env (Some icfg) c))
                     (on_pin (ButtonModel.pin button) instants) w))
      = events w ++ l
      /\ Forall2 (fun t p => t <= time p
                             /\ p = measurement_of icfg button (time p))
                 instants (submitted l)
      /\ Forall (fun x => x = c) (writers l).
Proof.
  induction instants as [|t rest IH]; intros w A; simpl.
  - exists []. rewrite app_nil_r. repeat split; constructor.
  - unfold bind at 1, deliver at 1, bind at 1, at_instant at 1.
    set (w0 := mk_world (trace w) (Z.max (now w) t) (gpio w)).
    rewrite (deliver_to_single _ _ button); [|exact A].
    unfold invoke.
    destruct (press_events env config icfg c button (ButtonModel.pin button) w0)
      as [l1 [E1 [S1 W1]]].
    pose proof (press_keeps_listeners env config (Some icfg) c button
                  (ButtonModel.pin button) w0) as K.
    set (w1 := snd (callback_for_button button _ _ w0)) in *.
    destruct (IH w1) as [l2 [E2 [T2 W2]]].
    { unfold armed_on in *. now rewrite K. }
    exists (l1 ++ l2). rewrite E2, E1, <- app_assoc.
    rewrite submitted_app, writers_app, S1, W1. simpl.
    repeat split; auto.
    constructor; auto. unfold w0; simpl. split; [lia | reflexivity].
Qed.

Lemma stamped_le (icfg : InfluxdbModel.t) (button : ButtonModel.t)
      (instants : list Z) (pts : list point) :
  Forall2 (fun t p => t <= time p /\ p = measurement_of icfg button (time p))
          instants pts ->
  List.length pts = List.length instants
  /\ Forall2 Z.le instants (map time pts).
Proof.
  induction 1 as [|t p ts ps [H _] _ [IH1 IH2]]; simpl.
  - split; constructor.
  - split; [now rewrite IH1 | now constructor].
Qed.

Lemma setup_buttons_bouncetime (env : Env) (bouncetime : Z)
      (buttons : list ButtonModel.t) :
  emits (driver_bouncetime bouncetime) (setup_buttons env bouncetime buttons).
Proof.
  induction buttons as [|b rest IH]; simpl;
    unfold GPIO_setup_, GPIO_add_event_detect_; emits_auto.
  simpl. apply Z.eqb_refl.
Qed.

(** C1, as stated, fails: with bouncetime 200, two edges 50 ms apart on the
    "happy" button are both handled (the LED flash of 10 ms is over well
    before the second edge), where the gate of the specification lets only
    the first through. *)
Lemma debounce_gate_absent :
  let w' := snd (main quiet quick_demo [Edge 5 0; Edge 5 50] boot) in
  map time (submitted (events w')) = [0; 50]
  /\ DebounceGate.accepted (OverallModel.bouncetime quick_demo) None [0; 50]
     = [0]
  /\ 50 - 0 < OverallModel.bouncetime quick_demo.
Proof. vm_compute. repeat split. Qed.

(** * Startup *)

Lemma handler_construction (env : Env) (config : OverallModel.t)
      (icfg : InfluxdbModel.t) (w : world) :
  OverallModel.influxdb config = Some icfg ->
  let db := InfluxdbModel.database_name icfg in
  let c := next_client w db in
  let w1 := snd (emit (Ev (InfluxDBClient db)) w) in
  let w2 := snd (emit (Ev (create_database c db)) w1) in
  post_to_influxdb_and_flash_led_callback env config w =
  match fault env w (InfluxDBClient db) with
  | Some e => (Raise e, w1)
  | None =>
      match fault env w1 (create_database c db) with
      | Some e => (Raise e, w2)
      | None =>
          (Ret (button_callback env config
                  (influxdb_callback env (Some icfg) c)), w2)
      end
  end.
Proof.
  intros H db c w1 w2. subst db c w1 w2.
  unfold post_to_influxdb_and_flash_led_callback, post_to_influxdb_callback,
    get_influxdb_client. rewrite H.
  unfold attr, bind, ret, InfluxDBClient_, create_database_, extcall, emit,
    next_client. simpl.
  destruct (fault env w _); simpl; auto.
  destruct (fault env _ _); simpl; auto.
Qed.

Lemma handler_construction_none (env : Env) (config : OverallModel.t)
      (w : world) :
  OverallModel.influxdb config = None ->
  post_to_influxdb_and_flash_led_callback env config w
  = (Raise AttributeError, w).
Proof.
  intros H.
  unfold post_to_influxdb_and_flash_led_callback, post_to_influxdb_callback,
    get_influxdb_client. now rewrite H.
Qed.

(** What [post_to_influxdb_and_flash_led_callback] returns, when it
    returns: the closure over the configuration and over the client it has
    just built. *)
Lemma handler_built (env : Env) (config : OverallModel.t) (w0 w1 : world)
      (handler : ButtonModel.t -> M unit) :
  post_to_influxdb_and_flash_led_callback env config w0 = (Ret handler, w1) ->
  exists icfg,
    OverallModel.influxdb config = Some icfg
    /\ handler
       = button_callback env config
           (influxdb_callback env (Some icfg)
              (next_client w0 (InfluxdbModel.database_name icfg))).
Proof.
  intros H. destruct (OverallModel.influxdb config) as [icfg|] eqn:I.
  - exists icfg. split; auto.
    rewrite (handler_construction env config icfg w0 I) in H. cbv zeta in H.
    destruct (fault env w0 _); [discriminate|].
    destruct (fault env _ _); [discriminate|].
    now injection H as <- _.
  - rewrite (handler_construction_none env config w0 I) in H. discriminate.
Qed.

(** [main] is [gpio_context] around the main loop, with the handler that
    the factory returned. *)
Lemma main_with_handler (env : Env) (config : OverallModel.t) (w0 w1 : world)
      (handler : ButtonModel.t -> M unit) (script : list stimulus) :
  post_to_influxdb_and_flash_led_callback env config w0 = (Ret handler, w1) ->
  main env config script w0
  = gpio_context env config handler (main_loop handler script) w1.
Proof. intros H. unfold main, bind. now rewrite H. Qed.

Lemma keep_alive_no_return (handler : ButtonModel.t -> M unit)
      (script : list stimulus) :
  forall started w, fst (keep_alive handler started script w) <> Ret tt.
Proof.
  induction script as [|[pin t| |e|] rest IH]; intros started w; simpl.
  - discriminate.
  - unfold bind at 1. unfold deliver, bind, at_instant.
    set (w0 := mk_world _ _ _).
    assert (D : forall ls v, fst (deliver_to handler pin ls v) = Ret tt).
    { induction ls as [|[q b] ls IHl]; intros v; simpl; auto.
      unfold bind. destruct (q =? pin); simpl; apply IHl. }
    specialize (D (listeners (gpio w0)) w0).
    destruct (deliver_to handler pin (listeners (gpio w0)) w0) as [[[]|e|] v];
      simpl in D; try discriminate.
    apply IH.
  - unfold bind, at_instant, logger, emit. simpl. apply IH.
  - discriminate.
  - discriminate.
Qed.

Lemma deliver_returns (handler : ButtonModel.t -> M unit) (pin t : Z)
      (w : world) :
  fst (deliver handler pin t w) = Ret tt.
Proof.
  unfold deliver, bind, at_instant.
  generalize (mk_world (trace w) (Z.max (now w) t) (gpio w)). intros w0.
  generalize (listeners (gpio w0)) at 1. intros ls. revert w0.
  induction ls as [|[q b] ls IH]; intros w0; simpl; auto.
  unfold bind. destruct (q =? pin); simpl; apply IH.
Qed.

(** The loop ends when a signal arrives, and only then. *)
Lemma signal_ends_the_loop (handler : ButtonModel.t -> M unit)
      (script rest : list stimulus) (e : exn) :
  forallb (fun s => negb (is_signal s)) script = true ->
  forall started w,
    fst (keep_alive handler started (script ++ Signal e :: rest) w) = Raise e
    /\ fst (keep_alive handler started script w) = Blocked.
Proof.
  induction script as [|[pin t| |e'|] script IH]; intros H started w;
    simpl in *; try discriminate.
  - auto.
  - pose proof (deliver_returns handler pin t w) as D.
    assert (U : forall k : unit -> M unit,
               bind (deliver handler pin t) k w
               = k tt (snd (deliver handler pin t w))).
    { intros k. unfold bind.
      destruct (deliver handler pin t w) as [[[]|x|] w1]; simpl in D;
        try discriminate; reflexivity. }
    rewrite !U. now apply IH.
  - unfold bind, at_instant, logger, emit. simpl. now apply IH.
Qed.

(** After a signal that terminates the process nothing happens any more:
    the run is the run up to that signal. *)
Lemma terminate_ends_the_process (handler : ButtonModel.t -> M unit)
      (pre rest : list stimulus) :
  forall started w,
    keep_alive handler started (pre ++ Terminate :: rest) w
    = keep_alive handler started pre w.
Proof.
  induction pre as [|[pin t| |e|] pre IH]; intros started w; simpl; auto.
  - unfold bind. destruct (deliver handler pin t w) as [[[]|x|] w1]; auto.
  - unfold bind, at_instant, logger, emit. simpl. apply IH.
Qed.

Lemma main_terminate (env : Env) (config : OverallModel.t)
      (pre rest : list stimulus) (w : world) :
  main env config (pre ++ Terminate :: rest) w = main env config pre w.
Proof.
  unfold main, bind.
  destruct (post_to_influxdb_and_flash_led_callback env config w)
    as [[h|e|] w1]; auto.
  unfold gpio_context, try_finally, bind.
  destruct (init_gpio env config h w1) as [[[]|e|] w2]; auto.
  unfold main_loop, bind, emit. cbv beta iota.
  now rewrite terminate_ends_the_process.
Qed.

Lemma main_loop_no_return (handler : ButtonModel.t -> M unit)
      (script : list stimulus) (w : world) :
  fst (main_loop handler script w) <> Ret tt.
Proof.
  unfold main_loop, bind, emit. apply keep_alive_no_return.
Qed.

Lemma running_not_cleanup (c : client) (e : event) :
  running c e = true -> negb (is_cleanup e) = true.
Proof.
  destruct e as [[]|[] []]; unfold running; simpl; intros;
    try reflexivity; discriminate.
Qed.

Lemma running_not_new_client (c : client) (e : event) :
  running c e = true -> negb (is_new_client e) = true.
Proof.
  destruct e as [[]|[] []]; unfold running; simpl; intros;
    try reflexivity; discriminate.
Qed.

Lemma running_not_create (c : client) (e : event) :
  running c e = true -> negb (is_create e) = true.
Proof.
  destruct e as [[]|[] []]; unfold running; simpl; intros;
    try reflexivity; discriminate.
Qed.

Lemma running_writers (c : client) (l : list event) :
  forallb (running c) l = true -> Forall (fun x => x = c) (writers l).
Proof.
  induction l as [|e l IH]; simpl; [constructor|].
  intros H. apply andb_prop in H as [He Hl].
  destruct e as [[]|]; simpl; auto.
  constructor; auto. simpl in He. now apply client_eqb_eq.
Qed.

Lemma armed_emits (env : Env) (config : OverallModel.t)
      (handler : ButtonModel.t -> M unit) (c : client)
      (script : list stimulus) :
  (forall b, emits (pressing c) (handler b)) ->
  emits (running c) (init_gpio env config handler ;; main_loop handler script).
Proof.
  intros H. apply emits_bind; [|intros _].
  - apply emits_weaken with (p := configuring); [|apply init_gpio_emits].
    intros e He. unfold running. now rewrite He.
  - apply emits_weaken with (p := pressing c); [|now apply main_loop_emits].
    intros e He. unfold running. rewrite He. apply orb_true_r.
Qed.

Lemma armed_no_return (env : Env) (config : OverallModel.t)
      (handler : ButtonModel.t -> M unit) (script : list stimulus) (w : world) :
  fst ((init_gpio env config handler ;; main_loop handler script) w) <> Ret tt.
Proof.
  unfold bind. destruct (init_gpio env config handler w) as [[[]|e|] w1];
    simpl; try discriminate.
  apply main_loop_no_return.
Qed.

Lemma close_gpio_run (w : world) :
  close_gpio w
  = (Ret tt,
     mk_world (trace w ++ [(now w, Log INFO ClosingGpio);
                           (now w, Ev GPIO_cleanup)])
              (now w) gpio_released).
Proof.
  unfold close_gpio, bind, logger, emit, GPIO_cleanup_. simpl.
  now rewrite <- app_assoc.
Qed.

(** The three ways a run of [gpio_context] around the main loop can stand. *)
Lemma gpio_context_run (env : Env) (config : OverallModel.t)
      (handler : ButtonModel.t -> M unit) (c : client)
      (script : list stimulus) (w : world) :
  (forall b, emits (pressing c) (handler b)) ->
  let r := gpio_context env config handler (main_loop handler script) w in
  exists l,
    forallb (running c) l = true
    /\ ((fst r = Blocked /\ events (snd r) = events w ++ l)
        \/ (exists e, fst r = Raise e
                      /\ events (snd r)
                         = events w ++ l ++ [Log INFO ClosingGpio; Ev GPIO_cleanup]
                      /\ gpio (snd r) = gpio_released)).
Proof.
  intros H r. subst r. unfold gpio_context, try_finally.
  destruct (armed_emits env config handler c script H w) as [l [El Pl]].
  pose proof (armed_no_return env config handler script w) as N.
  destruct ((init_gpio env config handler ;; main_loop handler script) w)
    as [[[]|e|] w1]; cbn [fst snd] in *.
  - now destruct N.
  - exists l. split; auto. right. exists e.
    rewrite close_gpio_run. cbn [fst snd gpio]. repeat split.
    unfold events in *. cbn [trace]. now rewrite map_app, El, <- app_assoc.
  - exists l. split; auto.
Qed.

Lemma cleanups_running (c : client) (l : list event) :
  forallb (running c) l = true -> cleanups l = 0%nat.
Proof.
  intros H. unfold cleanups. rewrite filter_none; auto.
  apply forallb_weaken with (p := running c); auto.
  apply running_not_cleanup.
Qed.

Lemma emit_events (e : event) (w : world) :
  events (snd (emit e w)) = events w ++ [e].
Proof. apply events_snoc. Qed.

(** * Teardown *)

Lemma teardown_cases (env : Env) (config : OverallModel.t)
      (script : list stimulus) (w : world) :
  let r := main env config script w in
  match fst (post_to_influxdb_and_flash_led_callback env config w) with
  | Ret _ =>
      match fst r with
      | Raise _ =>
          cleanups (emitted w (snd r)) = 1%nat
          /\ gpio (snd r) = gpio_released
      | Blocked => cleanups (emitted w (snd r)) = 0%nat
      | Ret _ => False
      end
  | Raise e =>
      fst r = Raise e
      /\ existsb is_gpio (emitted w (snd r)) = false
  | Blocked => False
  end.
Proof.
  intros r. subst r. unfold main, bind.
  destruct (OverallModel.influxdb config) as [icfg|] eqn:I.
  - rewrite (handler_construction env config icfg w I). cbn zeta.
    set (db := InfluxdbModel.database_name icfg).
    set (c := next_client w db).
    set (w1 := snd (emit (Ev (InfluxDBClient db)) w)).
    set (w2 := snd (emit (Ev (create_database c db)) w1)).
    assert (E1 : events w1 = events w ++ [Ev (InfluxDBClient db)])
      by apply emit_events.
    assert (E2 : events w2
                 = events w ++ [Ev (InfluxDBClient db);
                                Ev (create_database c db)]).
    { unfold w2. rewrite emit_events, E1, <- app_assoc. reflexivity. }
    destruct (fault env w (InfluxDBClient db)) as [e|]; cbv beta iota;
      cbn [fst snd].
    + split; auto. now rewrite (emitted_app _ _ _ E1).
    + destruct (fault env w1 (create_database c db)) as [e|];
        cbv beta iota; cbn [fst snd].
      * split; auto. now rewrite (emitted_app _ _ _ E2).
      * destruct (gpio_context_run env config
                    (button_callback env config
                       (influxdb_callback env (Some icfg) c))
                    c script w2
                    (button_callback_emits env config (Some icfg) c))
          as [l [Pl [[B E]|[e [R [E G]]]]]].
        -- rewrite B. rewrite E2, <- app_assoc in E.
           rewrite (emitted_app _ _ _ E), cleanups_app.
           now rewrite (cleanups_running c l Pl).
        -- rewrite R. split; auto.
           rewrite E2, <- app_assoc in E.
           rewrite (emitted_app _ _ _ E), !cleanups_app.
           now rewrite (cleanups_running c l Pl).
  - rewrite (handler_construction_none env config w I).
    cbv beta iota; cbn [fst snd].
    split; auto. unfold emitted. now rewrite skipn_all.
Qed.

(** C3 (as the code has it): once the handler is built and [gpio_context] is
    entered, every exit of the process by an exception runs [GPIO.cleanup]
    exactly once and leaves nothing claimed: an error, a signal that is
    raised as an exception in the main thread (SIGINT as
    [KeyboardInterrupt]), or [init_gpio] failing part-way.  The loop has no
    normal exit, and while the process is armed the teardown has not run.
    [main.py] installs no signal handler: a signal that terminates the
    process ends the run where it is, whatever would have followed, so an
    armed process that is terminated goes without teardown.  A start that
    fails while the handler is built (no influxdb section, or the client or
    the database cannot be created) ends without teardown, before any GPIO
    call.  Two calls of [close_gpio] in a row return and leave the facility
    as one call does. *)
Theorem teardown_once_after_gpio_setup :
  forall (env : Env) (config : OverallModel.t) (script : list stimulus)
         (w : world),
    let r := main env config script w in
    match fst (post_to_influxdb_and_flash_led_callback env config w) with
    | Ret _ =>
        match fst r with
        | Raise _ =>
            cleanups (emitted w (snd r)) = 1%nat
            /\ gpio (snd r) = gpio_released
        | Blocked => cleanups (emitted w (snd r)) = 0%nat
        | Ret _ => False
        end
    | Raise e =>
        fst r = Raise e
        /\ existsb is_gpio (emitted w (snd r)) = false
    | Blocked => False
    end
    /\ (forall rest : list stimulus,
          let k := main env config (script ++ Terminate :: rest) w in
          k = r
          /\ match fst r with
             | Blocked =>
                 fst k = Blocked /\ cleanups (emitted w (snd k)) = 0%nat
             | _ => True
             end)
    /\ (forall v,
          fst ((close_gpio ;; close_gpio) v) = Ret tt
          /\ gpio (snd ((close_gpio ;; close_gpio) v))
             = gpio (snd (close_gpio v))).
Proof.
  intros env config script w r.
  pose proof (teardown_cases env config script w) as T. cbv zeta in T.
  fold r in T. split; [exact T|split].
  - intros rest k. subst k. rewrite main_terminate. fold r.
    split; [reflexivity|].
    destruct (fst (post_to_influxdb_and_flash_led_callback env config w));
      destruct (fst r) eqn:F; auto.
    + destruct T as [T _]. discriminate.
    + destruct T.
  - intros v. unfold bind. rewrite (close_gpio_run v). cbn [fst snd].
    now rewrite close_gpio_run.
Qed.

(** The exits of the process, on the sample configuration: a signal that
    raises while armed, a failure of [init_gpio] after the buttons were
    armed (no led section), and a process that is still armed. *)
Lemma teardown_on_each_exit :
  (let r := main quiet demo [Edge 5 0; Wake; Signal KeyboardInterrupt] boot in
   fst r = Raise KeyboardInterrupt /\ cleanups (events (snd r)) = 1%nat)
  /\ (let r := program quiet no_led [Edge 5 0] boot in
      fst r = Raise AttributeError
      /\ existsb is_listen (events (snd r)) = true
      /\ cleanups (events (snd r)) = 1%nat
      /\ gpio (snd r) = gpio_released)
  /\ (let r := main quiet demo [Edge 5 0; Wake] boot in
      fst r = Blocked /\ cleanups (events (snd r)) = 0%nat).
Proof. vm_compute. repeat split. Qed.

(** C3, as stated, fails on two exits.  With a store that cannot be reached
    the process dies while it builds the handler, and [GPIO.cleanup] is
    never called.  And an armed process that is sent a terminating signal
    is gone without [GPIO.cleanup]: the three pins are still claimed and
    both listeners still armed. *)
Lemma exits_without_teardown :
  (let r := main store_down demo [] boot in
   fst r = Raise InfluxDBError
   /\ cleanups (events (snd r)) = 0%nat)
  /\ (let r := main quiet demo [Edge 5 0; Terminate] boot in
      fst r = Blocked
      /\ cleanups (events (snd r)) = 0%nat
      /\ claimed (gpio (snd r)) = [(5, IN); (7, IN); (6, OUT)]
      /\ listeners (gpio (snd r)) = [(5, happy); (7, sad)]).
Proof. vm_compute. repeat split. Qed.

(** * The time-series client *)

Lemma closing_facts (c : client) (l : list event) :
  forallb (running c) l = true ->
  let l' := l ++ [Log INFO ClosingGpio; Ev GPIO_cleanup] in
  forallb (fun e => negb (is_new_client e)) l' = true
  /\ forallb (fun e => negb (is_create e)) l' = true
  /\ Forall (fun x => x = c) (writers l').
Proof.
  intros H l'. subst l'. rewrite !forallb_app, writers_app. simpl.
  rewrite app_nil_r, !andb_true_r.
  repeat split.
  - apply forallb_weaken with (p := running c); auto.
    apply running_not_new_client.
  - apply forallb_weaken with (p := running c); auto.
    apply running_not_create.
  - now apply running_writers.
Qed.

Lemma running_facts (c : client) (l : list event) :
  forallb (running c) l = true ->
  forallb (fun e => negb (is_new_client e)) l = true
  /\ forallb (fun e => negb (is_create e)) l = true
  /\ Forall (fun x => x = c) (writers l).
Proof.
  intros H. repeat split.
  - apply forallb_weaken with (p := running c); auto.
    apply running_not_new_client.
  - apply forallb_weaken with (p := running c); auto.
    apply running_not_create.
  - now apply running_writers.
Qed.

(** C10: in every run of [main] on a configuration with an influxdb
    section, the first thing the process does is construct the client, and
    the second is [create_database] through it, before any GPIO call and so
    before any listener is armed.  No other client is constructed and no
    other database call is made, and every later [write_points] goes
    through that one client.  If the construction or the database call
    fails, [main] raises that exception at once: startup is aborted and
    nothing else is done. *)
Theorem client_built_once_at_startup :
  forall (env : Env) (buttons : option (list ButtonModel.t))
         (led : option LedModel.t) (bouncetime : Z) (icfg : InfluxdbModel.t)
         (script : list stimulus) (w : world),
    let config := OverallModel.mk buttons led bouncetime (Some icfg) in
    let db := InfluxdbModel.database_name icfg in
    let c := next_client w db in
    let r := main env config script w in
    exists rest,
      emitted w (snd r) = Ev (InfluxDBClient db) :: rest
      /\ forallb (fun e => negb (is_new_client e)) rest = true
      /\ Forall (fun x => x = c) (writers rest)
      /\ match fault env w (InfluxDBClient db) with
         | Some e => fst r = Raise e /\ rest = []
         | None =>
             exists rest',
               rest = Ev (create_database c db) :: rest'
               /\ forallb (fun e => negb (is_create e)) rest' = true
               /\ match fault env (snd (emit (Ev (InfluxDBClient db)) w))
                              (create_database c db) with
                  | Some e => fst r = Raise e /\ rest' = []
                  | None => True
                  end
         end.
Proof.
  intros env buttons led bouncetime icfg script w config db c r. subst r.
  unfold main, bind.
  rewrite (handler_construction env config icfg w eq_refl). cbn zeta.
  fold db. fold c.
  set (w1 := snd (emit (Ev (InfluxDBClient db)) w)).
  set (w2 := snd (emit (Ev (create_database c db)) w1)).
  assert (E1 : events w1 = events w ++ [Ev (InfluxDBClient db)])
    by apply emit_events.
  assert (E2 : events w2
               = events w ++ [Ev (InfluxDBClient db);
                              Ev (create_database c db)]).
  { unfold w2. rewrite emit_events, E1, <- app_assoc. reflexivity. }
  destruct (fault env w (InfluxDBClient db)) as [e|]; cbv beta iota;
    cbn [fst snd].
  - exists []. rewrite (emitted_app _ _ _ E1). repeat split; constructor.
  - destruct (fault env w1 (create_database c db)) as [e|];
      cbv beta iota; cbn [fst snd].
    + exists [Ev (create_database c db)].
      rewrite (emitted_app _ _ _ E2). repeat split; try constructor.
      exists []. repeat split.
    + destruct (gpio_context_run env config
                  (button_callback env config
                     (influxdb_callback env (Some icfg) c))
                  c script w2
                  (button_callback_emits env config (Some icfg) c))
        as [l [Pl [[B E]|[e [R [E G]]]]]].
      * rewrite E2, <- app_assoc in E. rewrite (emitted_app _ _ _ E).
        destruct (running_facts c l Pl) as [F1 [F2 F3]].
        exists (Ev (create_database c db) :: l). simpl.
        repeat split; auto. exists l. repeat split; auto.
      * rewrite E2, <- app_assoc in E. rewrite (emitted_app _ _ _ E).
        destruct (closing_facts c l Pl) as [F1 [F2 F3]].
        eexists. simpl. split; [reflexivity|].
        repeat split; auto. eexists. repeat split; auto.
Qed.

(** * Configuration *)

Lemma validate_buttons_to_raw (bs : list ButtonModel.t) :
  OverallModel.validate_buttons (map button_to_raw bs) = Ret bs.
Proof.
  induction bs as [|[p l v] bs IH]; simpl; auto. now rewrite IH.
Qed.

Lemma validate_to_raw (c : OverallModel.t) :
  OverallModel.validate (to_raw c) = Ret c.
Proof.
  destruct c as [[bs|] [[lp lf]|] bt [[d m]|]]; unfold OverallModel.validate;
    simpl; rewrite ?validate_buttons_to_raw; reflexivity.
Qed.

Lemma load_config_from_file_to_raw (c : OverallModel.t) (w : world) :
  load_config_from_file (to_raw c) w
  = (Ret c, snd (logger INFO LoadedConfiguration w)).
Proof.
  unfold load_config_from_file, bind, lift. now rewrite validate_to_raw.
Qed.












(** C7, on the code: none of the three sections is required, so a mapping
    from which any of them is missing is validated as it is, with [None] in
    its place.  With the led section missing, the process gets as far as
    arming the listeners of both buttons before [physical_config.led.pin]
    raises [AttributeError] in [init_gpio]; a mapping with no key at all is
    validated too. *)
Theorem missing_sections_pass_validation :
  (forall (config : OverallModel.t) (w : world),
      fst (load_config_from_file (to_raw config) w) = Ret config)
  /\ fst (load_config_from_file no_led boot)
     = Ret (OverallModel.mk (Some [happy; sad]) None 200 (Some mood_db))
  /\ (let r := program quiet no_led [] boot in
      fst r = Raise AttributeError
      /\ List.length (filter is_listen (events (snd r))) = 2%nat)
  /\ fst (load_config_from_file
            (OverallModel.mk_raw None None None None) boot)
     = Ret (OverallModel.mk None None 200 None).
Proof.
  split; [|vm_compute; repeat split].
  intros config w. now rewrite load_config_from_file_to_raw.
Qed.

Lemma missing_leaf_field_fails_validation (bs : option (list ButtonModel.raw))
      (flash : option Z) (bt : option Z) (i : option InfluxdbModel.raw)
      (w : world) :
  fst (load_config_from_file
         (OverallModel.mk_raw (Some []) (Some (LedModel.mk_raw None flash)) bt i)
         w)
  = Raise DataError.
Proof. reflexivity. Qed.

(** * The indicator under concurrent presses *)

Lemma timed_emitted_app (w : world) (l : list (Z * event)) (n : Z)
      (g : gpio_state) :
  timed_emitted w (mk_world (trace w ++ l) n g) = l.
Proof.
  unfold timed_emitted. cbn [trace].
  rewrite skipn_app, skipn_all, Nat.sub_diag. reflexivity.
Qed.

Lemma sleep_max_lt_float_max : sleep_max < float_max.
Proof. vm_compute. reflexivity. Qed.

(** A sleep of a length in range: it is up to the platform. *)
Lemma time_sleep_run (env : Env) (ms : Z) (w : world) :
  0 <= ms <= sleep_max ->
  time_sleep_ env ms w
  = match fault env w (time_sleep ms) with
    | Some e =>
        (Raise e,
         mk_world (trace w ++ [(now w, Ev (time_sleep ms))]) (now w) (gpio w))
    | None =>
        (Ret tt,
         mk_world (trace w ++ [(now w, Ev (time_sleep ms))]) (now w + ms)
                  (gpio w))
    end.
Proof.
  intros R. unfold time_sleep_. pose proof sleep_max_lt_float_max as L.
  destruct (float_max <=? Z.abs ms) eqn:A; [apply Z.leb_le in A; lia|].
  destruct (sleep_max <? Z.abs ms) eqn:B; [apply Z.ltb_lt in B; lia|].
  destruct (ms <? 0) eqn:N; [apply Z.ltb_lt in N; lia|].
  reflexivity.
Qed.

(** A sleep of a length out of range raises, and the clock stands still. *)
Lemma time_sleep_out_of_range (env : Env) (ms : Z) (w : world) :
  ms < 0 \/ sleep_max < ms ->
  exists e l,
    time_sleep_ env ms w
    = (Raise e, mk_world (trace w ++ l) (now w) (gpio w))
    /\ e = (if (ms <? 0) && (- sleep_max <=? ms) then ValueError
            else OverflowError)
    /\ l = (if float_max <=? Z.abs ms then []
            else [(now w, Ev (time_sleep ms))]).
Proof.
  intros R. unfold time_sleep_. pose proof sleep_max_lt_float_max as L.
  destruct (float_max <=? Z.abs ms) eqn:A.
  - apply Z.leb_le in A. exists OverflowError, []. rewrite app_nil_r.
    repeat split; [now destruct w|].
    destruct (ms <? 0) eqn:N; [|reflexivity].
    destruct (- sleep_max <=? ms) eqn:B; [|reflexivity].
    apply Z.ltb_lt in N. apply Z.leb_le in B. lia.
  - destruct (sleep_max <? Z.abs ms) eqn:B.
    + apply Z.ltb_lt in B. exists OverflowError, [(now w, Ev (time_sleep ms))].
      repeat split.
      destruct (ms <? 0) eqn:N; [|reflexivity].
      destruct (- sleep_max <=? ms) eqn:C; [|reflexivity].
      apply Z.ltb_lt in N. apply Z.leb_le in C. lia.
    + apply Z.ltb_ge in B.
      destruct (ms <? 0) eqn:N.
      * exists ValueError, [(now w, Ev (time_sleep ms))]. repeat split.
        destruct (- sleep_max <=? ms) eqn:C; [reflexivity|].
        apply Z.ltb_lt in N. apply Z.leb_gt in C. lia.
      * apply Z.ltb_ge in N. lia.
Qed.

Lemma flash_led_run (env : Env) (led : LedModel.t) (w : world) :
  (forall v p l, fault env v (GPIO_output p l) = None) ->
  (forall v, fault env v (time_sleep (LedModel.flash_time_ms led)) = None) ->
  0 <= LedModel.flash_time_ms led <= sleep_max ->
  let d := LedModel.flash_time_ms led in
  let pin := LedModel.pin led in
  flash_led env (Some led) w
  = (Ret tt,
     mk_world (trace w ++ [(now w, Log DEBUG TurningLedOn);
                           (now w, Ev (GPIO_output pin HIGH));
                           (now w, Ev (time_sleep d));
                           (now w + d, Ev (GPIO_output pin LOW));
                           (now w + d, Log DEBUG TurnedLedOff)])
              (now w + d)
              (mk_gpio (mode (gpio w)) (claimed (gpio w)) (listeners (gpio w))
                       (set_level pin LOW (set_level pin HIGH (levels (gpio w)))))).
Proof.
  intros F S D d pin. subst d pin.
  unfold flash_led, bind, attr, ret, logger, emit, GPIO_output_, extcall.
  rewrite !F, (time_sleep_run env _ _ D), S.
  cbn [trace now gpio mode claimed listeners levels].
  rewrite F. cbn [trace now gpio mode claimed listeners levels].
  now rewrite <- !app_assoc.
Qed.

Lemma thread_flash_led (env : Env) (led : LedModel.t) (t : Z) (w : world) :
  (forall v p l, fault env v (GPIO_output p l) = None) ->
  (forall v, fault env v (time_sleep (LedModel.flash_time_ms led)) = None) ->
  0 <= LedModel.flash_time_ms led <= sleep_max ->
  let d := LedModel.flash_time_ms led in
  let pin := LedModel.pin led in
  thread (flash_led env (Some led)) t w
  = [(t, Log DEBUG TurningLedOn);
     (t, Ev (GPIO_output pin HIGH));
     (t, Ev (time_sleep d));
     (t + d, Ev (GPIO_output pin LOW));
     (t + d, Log DEBUG TurnedLedOff)].
Proof.
  intros F S D d pin. unfold thread. cbv zeta.
  rewrite (flash_led_run env led _ F S D). cbn [snd trace now].
  apply (timed_emitted_app (mk_world (trace w) t (gpio w))).
Qed.

(** C8 (as the code has it): [flash_led] takes no lock.  Take a
    [flash_time_ms] that [time.sleep] accepts (from 0 to [sleep_max]
    milliseconds) and libraries that refuse neither the [GPIO.output] calls
    nor that sleep.  Run on its own, a flash drives the pin high, sleeps
    [flash_time_ms] and drives it low.  Flashes that follow one another on
    one thread give pulses of [flash_time_ms] that do not overlap.  Flashes
    on two threads are not kept apart: when the second starts inside the
    pulse of the first, the first one's LOW lands inside the second one's
    pulse. *)
Theorem flash_led_is_not_exclusive :
  forall (env : Env) (led : LedModel.t) (t1 t2 : Z) (w : world),
    let d := LedModel.flash_time_ms led in
    let pin := LedModel.pin led in
    let flash := flash_led env (Some led) in
    (forall v p l, fault env v (GPIO_output p l) = None) ->
    (forall v, fault env v (time_sleep d) = None) ->
    0 <= d <= sleep_max ->
    thread flash t1 w
    = [(t1, Log DEBUG TurningLedOn);
       (t1, Ev (GPIO_output pin HIGH));
       (t1, Ev (time_sleep d));
       (t1 + d, Ev (GPIO_output pin LOW));
       (t1 + d, Log DEBUG TurnedLedOff)]
    /\ (let s1 := Z.max (now w) t1 in
        let s2 := Z.max (s1 + d) t2 in
        led_outputs pin
          (timed_emitted w
             (snd ((at_instant t1 ;; flash ;; at_instant t2 ;; flash) w)))
        = [(s1, HIGH); (s1 + d, LOW); (s2, HIGH); (s2 + d, LOW)])
    /\ (t1 < t2 -> t2 < t1 + d ->
        led_outputs pin (concurrently flash t1 flash t2 w)
        = [(t1, HIGH); (t2, HIGH); (t1 + d, LOW); (t2 + d, LOW)]).
Proof.
  intros env led t1 t2 w d pin flash F S D. subst flash.
  split; [|split].
  - now apply thread_flash_led.
  - cbv zeta. unfold bind at 1, at_instant at 1. unfold bind at 1.
    rewrite (flash_led_run env led _ F S D). cbn [now trace gpio].
    unfold bind at 1, at_instant at 1.
    rewrite (flash_led_run env led _ F S D).
    cbn [snd now trace gpio]. rewrite <- app_assoc.
    rewrite timed_emitted_app. fold d. fold pin.
    unfold led_outputs. cbn [flat_map snd fst app].
    now rewrite Z.eqb_refl.
  - intros L1 L2. unfold concurrently.
    rewrite !(thread_flash_led env led _ w F S D). fold d. fold pin.
    assert (C1 : (t1 <=? t2) = true) by (apply Z.leb_le; lia).
    assert (C2 : (t1 + d <=? t2) = false) by (apply Z.leb_gt; lia).
    assert (C3 : (t1 + d <=? t2 + d) = true) by (apply Z.leb_le; lia).
    cbn [merge fst]. rewrite !C1. cbn [merge fst]. rewrite !C2.
    cbn [merge fst]. rewrite !C3. cbn [merge fst].
    unfold led_outputs. cbn [flat_map snd fst app].
    now rewrite Z.eqb_refl.
Qed.

Lemma flash_led_is_not_exclusive_witness :
  let flash := flash_led quiet (Some (LedModel.mk 6 200)) in
  led_outputs 6 (concurrently flash 0 flash 100 boot)
  = [(0, HIGH); (100, HIGH); (0 + 200, LOW); (100 + 200, LOW)].
Proof.
  refine (proj2 (proj2 (flash_led_is_not_exclusive
                          quiet (LedModel.mk 6 200) 0 100 boot _ _ _)) _ _).
  - intros v p l. reflexivity.
  - intros v. reflexivity.
  - unfold sleep_max. simpl. lia.
  - lia.
  - simpl. lia.
Defined.

(** C8, as stated, fails: the "happy" button is pressed at 0 and the "sad"
    button at 100, and their handlers run on two threads.  The LED should
    stay high from 100 to 300 for the second press; the first handler drives
    it low at 200. *)
Lemma concurrent_presses_cut_the_pulse :
  let handler := button_callback quiet demo
                   (influxdb_callback quiet (Some mood_db) client0) in
  let w := snd (init_gpio quiet demo handler boot) in
  led_outputs 6 (concurrently (callback_for_button happy handler 5) 0
                              (callback_for_button sad handler 7) 100 w)
  = [(0, HIGH); (100, HIGH); (200, LOW); (300, LOW)].
Proof. vm_compute. reflexivity. Qed.

(** * More on the configuration *)

Lemma validate_buttons_complete (l : list ButtonModel.raw) :
  if forallb button_complete l
  then exists bs, OverallModel.validate_buttons l = Ret bs
                  /\ l = map button_to_raw bs
  else OverallModel.validate_buttons l = Raise DataError.
Proof.
  induction l as [|[[p|] [lb|] [v|]] l IH]; simpl; try reflexivity.
  - exists []. auto.
  - revert IH. destruct (forallb button_complete l); intros IH.
    + destruct IH as [bs [E R]]. rewrite E.
      exists (ButtonModel.mk p lb v :: bs). split; auto.
      simpl. now rewrite <- R.
    + now rewrite IH.
Qed.

Lemma load_config_cases :
  forall (raw_cfg : OverallModel.raw) (w : world),
    if raw_complete raw_cfg
    then exists cfg,
        load_config_from_file raw_cfg w
        = (Ret cfg, snd (logger INFO LoadedConfiguration w))
    else load_config_from_file raw_cfg w = (Raise DataError, w).
Proof.
  intros [bs l bt i] w.
  unfold raw_complete, load_config_from_file, bind, lift,
    OverallModel.validate, OverallModel.validate_opt. simpl.
  destruct bs as [bs|]; simpl.
  - pose proof (validate_buttons_complete bs) as B. revert B.
    destruct (forallb button_complete bs); intros B; simpl.
    + destruct B as [vs [E _]]. rewrite E.
      destruct l as [[[p|] f]|]; simpl; auto;
        destruct i as [[[d|] m]|]; simpl; auto;
        eexists; unfold ret; reflexivity.
    + now rewrite B.
  - destruct l as [[[p|] f]|]; simpl; auto;
      destruct i as [[[d|] m]|]; simpl; auto;
      eexists; unfold ret; reflexivity.
Qed.

(** * More on the handlers *)

Lemma find_filter_other (q pin : Z) (ls : list (Z * level)) :
  q <> pin ->
  find (fun x => fst x =? q) (filter (fun x => negb (fst x =? pin)) ls)
  = find (fun x => fst x =? q) ls.
Proof.
  intros N. induction ls as [|[a l] ls IH]; simpl; auto.
  destruct (a =? pin) eqn:A; simpl.
  - apply Z.eqb_eq in A. subst a.
    destruct (pin =? q) eqn:Q; auto. apply Z.eqb_eq in Q. congruence.
  - destruct (a =? q); auto.
Qed.

Lemma level_of_set_other (q pin : Z) (l : level) (m : option numbering)
      (cl : list (Z * direction)) (ls : list (Z * ButtonModel.t))
      (lv : list (Z * level)) :
  q <> pin ->
  level_of q (mk_gpio m cl ls (set_level pin l lv))
  = option_map snd (find (fun x => fst x =? q) lv).
Proof.
  intros N. unfold level_of, set_level. simpl.
  destruct (pin =? q) eqn:Q.
  - apply Z.eqb_eq in Q. congruence.
  - now rewrite find_filter_other.
Qed.

Lemma level_of_set_same (pin : Z) (l : level) (m : option numbering)
      (cl : list (Z * direction)) (ls : list (Z * ButtonModel.t))
      (lv : list (Z * level)) :
  level_of pin (mk_gpio m cl ls (set_level pin l lv)) = Some l.
Proof. unfold level_of, set_level. simpl. now rewrite Z.eqb_refl. Qed.

(** X3: [callback_for_button] checks the pin it is called with against the
    button it closes over: it logs the press at info severity, adds one
    record at error severity exactly when the two pins differ, and in both
    cases goes on to call the handler with its own button. *)
Theorem pin_mismatch_is_logged_and_the_handler_still_runs :
  forall (button : ButtonModel.t) (handler : ButtonModel.t -> M unit)
         (pin : Z) (w : world),
    emitted w (entered button pin w)
    = Log INFO (ButtonWasPressed (ButtonModel.label button) pin)
      :: (if Z.eqb pin (ButtonModel.pin button) then []
          else [Log ERROR (CallbackGotEventFor (ButtonModel.pin button) pin)])
    /\ now (entered button pin w) = now w
    /\ gpio (entered button pin w) = gpio w
    /\ callback_for_button button handler pin w
       = handler button (entered button pin w).
Proof.
  intros button handler pin w. repeat split.
  - apply emitted_app. unfold entered, bind, logger, emit, ret.
    destruct (pin =? ButtonModel.pin button); unfold events; simpl;
      rewrite ?map_app; simpl; now rewrite <- ?app_assoc.
  - apply entered_now.
  - unfold entered, bind, logger, emit, ret.
    now destruct (pin =? ButtonModel.pin button).
  - apply callback_for_button_enters.
Qed.

Lemma influxdb_callback_keeps_world :
  forall (env : Env) (config : option InfluxdbModel.t) (c : client)
         (button : ButtonModel.t) (w : world),
    let w' := snd (influxdb_callback env config c button w) in
    gpio w' = gpio w /\ now w <= now w'
    /\ forallb (fun e => negb (is_gpio e)) (emitted w w') = true.
Proof.
  intros env [icfg|] c button w w'; subst w'.
  - rewrite influxdb_callback_run.
    pose proof (influxdb_callback_events env icfg c button w) as E.
    rewrite influxdb_callback_run in E. unfold upload_events in E.
    destruct (fault env _ _); cbn [snd gpio now] in *; repeat split;
      try lia; rewrite (emitted_app _ _ _ E); reflexivity.
  - unfold influxdb_callback, attr, bind, raise. simpl. repeat split;
      [lia|]. unfold emitted. now rewrite skipn_all.
Qed.

(** X4: the upload callback does not touch the GPIO facility, whatever the
    store answers and whether or not it raises: it makes no GPIO call and
    leaves the facility as it found it.  The clock does not run backwards
    over it. *)
Theorem upload_leaves_the_gpio_facility_alone :
  forall (env : Env) (config : option InfluxdbModel.t) (c : client)
         (button : ButtonModel.t) (w : world),
    let w' := snd (influxdb_callback env config c button w) in
    gpio w' = gpio w /\ now w <= now w'
    /\ forallb (fun e => negb (is_gpio e)) (emitted w w') = true.
Proof.
  intros env config c button w. apply influxdb_callback_keeps_world.
Qed.

Lemma flash_led_returns (env : Env) (led : option LedModel.t) (w : world) :
  fst (flash_led env led w) = Ret tt ->
  exists l,
    led = Some l
    /\ 0 <= LedModel.flash_time_ms l <= sleep_max
    /\ now (snd (flash_led env led w)) = now w + LedModel.flash_time_ms l
    /\ level_of (LedModel.pin l) (gpio (snd (flash_led env led w))) = Some LOW.
Proof.
  destruct led as [l|]; [|discriminate].
  unfold flash_led, bind, attr, ret, logger, emit, GPIO_output_, extcall.
  cbv beta iota. cbn [trace now gpio].
  destruct (fault env _ _); cbv beta iota; [discriminate|].
  unfold time_sleep_.
  destruct (float_max <=? _); cbv beta iota; [discriminate|].
  cbn [trace now gpio].
  destruct (sleep_max <? _) eqn:B; cbv beta iota; [discriminate|].
  destruct (_ <? 0) eqn:N; cbv beta iota; [discriminate|].
  destruct (fault env _ _); cbv beta iota; [discriminate|].
  cbn [trace now gpio mode claimed listeners levels].
  destruct (fault env _ _); cbv beta iota; [discriminate|].
  intros _. exists l. apply Z.ltb_ge in N, B. cbn [fst snd now gpio].
  repeat split; try lia.
  apply level_of_set_same.
Qed.

Lemma button_callback_submits (env : Env) (config : OverallModel.t)
      (icfg : InfluxdbModel.t) (c : client) (button : ButtonModel.t)
      (w : world) :
  let w' := snd (button_callback env config
                   (influxdb_callback env (Some icfg) c) button w) in
  submitted (emitted w w') = [measurement_of icfg button (now w)]
  /\ writers (emitted w w') = [c].
Proof.
  intros w'. subst w'.
  destruct (button_callback_events env config icfg c button w)
    as [l [E [P _]]].
  rewrite (emitted_app _ _ _ E).
  assert (Pl : forallb (fun e => negb (is_write e)) l = true).
  { apply forallb_weaken with (p := flashing); auto.
    apply flashing_not_write. }
  rewrite submitted_app, writers_app.
  rewrite (submitted_none _ Pl), (writers_none _ Pl).
  unfold upload_events. destruct (fault env _ _); simpl; auto.
Qed.

(** X5: take the handler that [post_to_influxdb_and_flash_led_callback]
    returns.  An invocation of it that returns has handed one point to
    [write_points], has blocked its thread for at least [flash_time_ms]
    (the sleep of the flash, on top of what the upload took), with a
    [flash_time_ms] that [time.sleep] accepts, and leaves the LED pin low. *)
Theorem handler_that_returns_has_flashed :
  forall (env : Env) (config : OverallModel.t) (w0 w1 : world)
         (handler : ButtonModel.t -> M unit) (button : ButtonModel.t)
         (w : world),
    post_to_influxdb_and_flash_led_callback env config w0 = (Ret handler, w1) ->
    let r := handler button w in
    fst r = Ret tt ->
    exists l,
      OverallModel.led config = Some l
      /\ 0 <= LedModel.flash_time_ms l <= sleep_max
      /\ now w + LedModel.flash_time_ms l <= now (snd r)
      /\ level_of (LedModel.pin l) (gpio (snd r)) = Some LOW
      /\ List.length (submitted (emitted w (snd r))) = 1%nat.
Proof.
  intros env config w0 w1 handler button w B r.
  destruct (handler_built env config w0 w1 handler B) as [icfg [I ->]].
  subst r.
  destruct (button_callback_submits env config icfg
              (next_client w0 (InfluxdbModel.database_name icfg)) button w)
    as [S _].
  cbv zeta in S. rewrite S. clear S.
  unfold button_callback, bind.
  destruct (influxdb_callback_keeps_world env (Some icfg)
              (next_client w0 (InfluxdbModel.database_name icfg)) button w)
    as [_ [T _]].
  destruct (influxdb_callback env (Some icfg) _ button w) as [[[]|e|] v];
    cbn [fst snd] in *; try discriminate.
  intros H. destruct (flash_led_returns env _ v H) as [l [L [D [N V]]]].
  exists l. rewrite N. repeat split; auto; lia.
Qed.

Lemma handler_that_returns_has_flashed_witness :
  let handler := button_callback quiet demo
                   (influxdb_callback quiet (Some mood_db) client0) in
  exists l,
    OverallModel.led demo = Some l
    /\ 0 <= LedModel.flash_time_ms l <= sleep_max
    /\ now boot + LedModel.flash_time_ms l <= now (snd (handler happy boot))
    /\ level_of (LedModel.pin l) (gpio (snd (handler happy boot))) = Some LOW
    /\ List.length (submitted (emitted boot (snd (handler happy boot))))
       = 1%nat.
Proof.
  exact (handler_that_returns_has_flashed quiet demo boot
           (snd (post_to_influxdb_and_flash_led_callback quiet demo boot))
           (button_callback quiet demo
              (influxdb_callback quiet (Some mood_db) client0))
           happy boot eq_refl eq_refl).
Defined.

(** X6: the schema sets no bounds on [flash_time_ms].  With a value that
    [time.sleep] does not accept (negative, or beyond [sleep_max]),
    [flash_led] drives the LED high and then raises, at the sleep or at the
    division before it: [ValueError] for a negative length down to
    [- sleep_max], [OverflowError] otherwise.  The LED is never driven low
    again: it stays on. *)
Theorem flash_time_out_of_range_leaves_the_led_on :
  forall (env : Env) (led : LedModel.t) (w : world),
    let d := LedModel.flash_time_ms led in
    d < 0 \/ sleep_max < d ->
    fault env (snd (logger DEBUG TurningLedOn w))
          (GPIO_output (LedModel.pin led) HIGH) = None ->
    let r := flash_led env (Some led) w in
    fst r = Raise (if (d <? 0) && (- sleep_max <=? d) then ValueError
                   else OverflowError)
    /\ emitted w (snd r)
       = Log DEBUG TurningLedOn
         :: Ev (GPIO_output (LedModel.pin led) HIGH)
         :: (if float_max <=? Z.abs d then [] else [Ev (time_sleep d)])
    /\ level_of (LedModel.pin led) (gpio (snd r)) = Some HIGH.
Proof.
  intros env led w d N F r. subst r d.
  unfold flash_led, bind, attr, ret, GPIO_output_, extcall.
  unfold logger, emit in *. cbn [fst snd trace now gpio] in *. rewrite F.
  cbv beta iota.
  match goal with
  | |- context [time_sleep_ env ?ms ?v] =>
      destruct (time_sleep_out_of_range env ms v N) as [e [l [T [He Hl]]]]
  end.
  rewrite T. cbn [fst snd trace now gpio]. subst e. repeat split.
  - apply emitted_app. unfold events. cbn [trace]. rewrite !map_app. subst l.
    destruct (float_max <=? _); simpl; now rewrite <- !app_assoc.
  - apply level_of_set_same.
Qed.

Lemma flash_time_out_of_range_leaves_the_led_on_witness :
  (let r := flash_led quiet (Some (LedModel.mk 6 (-200))) boot in
   fst r = Raise ValueError
   /\ level_of 6 (gpio (snd r)) = Some HIGH)
  /\ (let r := flash_led quiet (Some (LedModel.mk 6 10000000000000)) boot in
      fst r = Raise OverflowError
      /\ level_of 6 (gpio (snd r)) = Some HIGH).
Proof.
  split.
  - refine ((fun H => conj (proj1 H) (proj2 (proj2 H)))
              (flash_time_out_of_range_leaves_the_led_on
                 quiet (LedModel.mk 6 (-200)) boot _ _)).
    + left. simpl. lia.
    + reflexivity.
  - refine ((fun H => conj (proj1 H) (proj2 (proj2 H)))
              (flash_time_out_of_range_leaves_the_led_on
                 quiet (LedModel.mk 6 10000000000000) boot _ _)).
    + right. unfold sleep_max. simpl. lia.
    + reflexivity.
Defined.

Lemma flash_led_keeps_the_rest (env : Env) (led : option LedModel.t) (q : Z) :
  (forall l, led = Some l -> q <> LedModel.pin l) ->
  keeps (fun g => (mode g, claimed g, listeners g, level_of q g))
        (flash_led env led).
Proof.
  intros H w. destruct led as [l|]; [|reflexivity].
  specialize (H l eq_refl).
  unfold flash_led, bind, attr, ret, logger, emit, GPIO_output_, extcall.
  cbv beta iota. cbn [trace now gpio].
  destruct (fault env _ _); cbv beta iota; cbn [snd gpio]; auto.
  assert (K : forall m cl ls lv,
             (mode (mk_gpio m cl ls (set_level (LedModel.pin l) HIGH lv)),
              claimed (mk_gpio m cl ls (set_level (LedModel.pin l) HIGH lv)),
              listeners (mk_gpio m cl ls (set_level (LedModel.pin l) HIGH lv)),
              level_of q (mk_gpio m cl ls (set_level (LedModel.pin l) HIGH lv)))
             = (m, cl, ls, option_map snd (find (fun x => fst x =? q) lv))).
  { intros m cl ls lv. now rewrite (level_of_set_other q _ HIGH _ _ _ _ H). }
  unfold time_sleep_.
  destruct (float_max <=? _); cbv beta iota; cbn [snd gpio trace now];
    [apply K|].
  destruct (sleep_max <? _); cbv beta iota; cbn [snd gpio trace now];
    [apply K|].
  destruct (_ <? 0); cbv beta iota; cbn [snd gpio trace now]; [apply K|].
  destruct (fault env _ _); cbv beta iota; cbn [snd gpio trace now];
    [apply K|].
  destruct (fault env _ _); cbv beta iota;
    cbn [snd gpio trace now mode claimed listeners levels];
    rewrite !(level_of_set_other q _ _ _ _ _ _ H); try reflexivity.
  unfold set_level. simpl.
  destruct (LedModel.pin l =? q) eqn:Q.
  - apply Z.eqb_eq in Q. congruence.
  - now rewrite find_filter_other.
Qed.

(** X7: handling a press changes nothing in the GPIO facility but the
    level of the LED pin: the numbering mode, the claimed pins, the armed
    listeners and the level of every other pin are as they were, whatever
    the outcome of the press. *)
Theorem press_changes_only_the_led_level :
  forall (env : Env) (config : OverallModel.t)
         (icfg : option InfluxdbModel.t) (c : client)
         (button : ButtonModel.t) (pin q : Z) (w : world),
    (forall l, OverallModel.led config = Some l -> q <> LedModel.pin l) ->
    let w' := snd (callback_for_button button
                     (button_callback env config (influxdb_callback env icfg c))
                     pin w) in
    mode (gpio w') = mode (gpio w)
    /\ claimed (gpio w') = claimed (gpio w)
    /\ listeners (gpio w') = listeners (gpio w)
    /\ level_of q (gpio w') = level_of q (gpio w).
Proof.
  intros env config icfg c button pin q w H w'. subst w'.
  assert (K : keeps (fun g => (mode g, claimed g, listeners g, level_of q g))
                (callback_for_button button
                   (button_callback env config (influxdb_callback env icfg c))
                   pin)).
  { unfold callback_for_button, button_callback. keeps_auto.
    - unfold influxdb_callback. keeps_auto.
    - now apply flash_led_keeps_the_rest. }
  specialize (K w). simpl in K. injection K as -> -> -> ->. auto.
Qed.

Lemma press_changes_only_the_led_level_witness :
  level_of 5 (gpio (snd (callback_for_button happy
                           (button_callback quiet demo
                              (influxdb_callback quiet (Some mood_db) client0))
                           5 boot)))
  = level_of 5 (gpio boot).
Proof.
  refine (proj2 (proj2 (proj2 (press_changes_only_the_led_level
                                 quiet demo (Some mood_db) client0 happy 5 5
                                 boot _)))).
  intros l E. injection E as <-. simpl. lia.
Defined.

(** * More on [init_gpio] *)

Lemma setup_buttons_cooperative (env : Env) (bouncetime : Z)
      (buttons : list ButtonModel.t) :
  cooperative env ->
  forall w,
    let r := setup_buttons env bouncetime buttons w in
    fst r = Ret tt
    /\ events (snd r) = events w ++ flat_map (button_calls bouncetime) buttons
    /\ now (snd r) = now w
    /\ mode (gpio (snd r)) = mode (gpio w)
    /\ listeners (gpio (snd r)) = listeners (gpio w) ++ map listener_of buttons
    /\ levels (gpio (snd r)) = levels (gpio w).
Proof.
  intros C. unfold cooperative in C.
  induction buttons as [|b rest IH]; intros w; simpl.
  - rewrite !app_nil_r. repeat split.
  - unfold bind, GPIO_setup_, GPIO_add_event_detect_, extcall.
    rewrite !C. cbv beta iota. rewrite ?C. cbv beta iota.
    match goal with
    | |- context [setup_buttons env bouncetime rest ?v] =>
        destruct (IH v) as [F [E [N [M [L V]]]]]
    end.
    rewrite F, E, N, M, L, V. repeat split.
    + unfold events. simpl. rewrite !map_app. simpl.
      now rewrite <- !app_assoc.
    + simpl. now rewrite <- app_assoc.
Qed.

Lemma init_gpio_cooperative :
  forall (env : Env) (buttons : list ButtonModel.t) (led : LedModel.t)
         (bouncetime : Z) (i : option InfluxdbModel.t)
         (handler : ButtonModel.t -> M unit) (w : world),
    cooperative env ->
    let config := OverallModel.mk (Some buttons) (Some led) bouncetime i in
    let r := init_gpio env config handler w in
    fst r = Ret tt
    /\ emitted w (snd r)
       = Ev (GPIO_setmode BOARD)
         :: flat_map (button_calls bouncetime) buttons
         ++ [Ev (GPIO_setup (LedModel.pin led) OUT PUD_OFF);
             Ev (GPIO_output (LedModel.pin led) LOW);
             Log INFO GpioInitComplete]
    /\ mode (gpio (snd r)) = Some BOARD
    /\ listeners (gpio (snd r)) = listeners (gpio w) ++ map listener_of buttons
    /\ level_of (LedModel.pin led) (gpio (snd r)) = Some LOW.
Proof.
  intros env buttons led bouncetime i handler w C config r. subst r config.
  unfold cooperative in C.
  unfold init_gpio, bind, GPIO_setmode_, extcall, iter, attr, ret. simpl.
  rewrite C. cbv beta iota.
  match goal with
  | |- context [setup_buttons env bouncetime buttons ?v] =>
      destruct (setup_buttons_cooperative env bouncetime buttons C v)
        as [F [E [N [M [L V]]]]];
      destruct (setup_buttons env bouncetime buttons v) as [[[]|e|] w2]
  end; cbn [fst snd] in *; try discriminate.
  unfold GPIO_setup_, GPIO_output_, extcall, logger, emit.
  rewrite !C. cbv beta iota. rewrite ?C. cbv beta iota. cbn [fst snd].
  repeat split.
  - apply emitted_app. unfold events in *. cbn [trace] in *.
    rewrite !map_app, E, map_app. simpl. now rewrite <- !app_assoc.
  - simpl. exact M.
  - simpl. exact L.
  - apply level_of_set_same.
Qed.

Lemma init_gpio_cooperative_now :
  forall (env : Env) (buttons : list ButtonModel.t) (led : LedModel.t)
         (bouncetime : Z) (i : option InfluxdbModel.t)
         (handler : ButtonModel.t -> M unit) (w : world),
    cooperative env ->
    let config := OverallModel.mk (Some buttons) (Some led) bouncetime i in
    now (snd (init_gpio env config handler w)) = now w.
Proof.
  intros env buttons led bouncetime i handler w C config. subst config.
  unfold cooperative in C.
  unfold init_gpio, bind, GPIO_setmode_, extcall, iter, attr, ret. simpl.
  rewrite C. cbv beta iota.
  match goal with
  | |- context [setup_buttons env bouncetime buttons ?v] =>
      destruct (setup_buttons_cooperative env bouncetime buttons C v)
        as [F [E [N [M [L V]]]]];
      destruct (setup_buttons env bouncetime buttons v) as [[[]|e|] w2]
  end; cbn [fst snd] in *; try discriminate.
  unfold GPIO_setup_, GPIO_output_, extcall, logger, emit.
  rewrite !C. cbv beta iota. rewrite ?C. cbv beta iota. cbn [fst snd now].
  exact N.
Qed.

(** X8: with a facility that refuses nothing, [init_gpio] on a
    configuration with buttons and a led returns after exactly these calls,
    in this order: BOARD numbering; for each button, in the order of the
    configuration, the pin as an input pulled down and a rising-edge
    listener with the configured bouncetime; the LED pin as an output,
    driven low.  One listener per button is then armed, in that order, and
    the LED is low. *)
Theorem init_gpio_arms_every_button_in_order :
  forall (env : Env) (buttons : list ButtonModel.t) (led : LedModel.t)
         (bouncetime : Z) (i : option InfluxdbModel.t)
         (handler : ButtonModel.t -> M unit) (w : world),
    cooperative env ->
    let config := OverallModel.mk (Some buttons) (Some led) bouncetime i in
    let r := init_gpio env config handler w in
    fst r = Ret tt
    /\ emitted w (snd r)
       = Ev (GPIO_setmode BOARD)
         :: flat_map (button_calls bouncetime) buttons
         ++ [Ev (GPIO_setup (LedModel.pin led) OUT PUD_OFF);
             Ev (GPIO_output (LedModel.pin led) LOW);
             Log INFO GpioInitComplete]
    /\ mode (gpio (snd r)) = Some BOARD
    /\ listeners (gpio (snd r)) = listeners (gpio w) ++ map listener_of buttons
    /\ level_of (LedModel.pin led) (gpio (snd r)) = Some LOW.
Proof.
  intros env buttons led bouncetime i handler w C.
  now apply init_gpio_cooperative.
Qed.

Lemma init_gpio_arms_every_button_in_order_witness :
  listeners (gpio (snd (init_gpio quiet demo (fun _ => ret tt) boot)))
  = listeners (gpio boot) ++ map listener_of [happy; sad].
Proof.
  refine (proj1 (proj2 (proj2 (proj2
            (init_gpio_arms_every_button_in_order
               quiet [happy; sad] (LedModel.mk 6 200) 200 (Some mood_db)
               (fun _ => ret tt) boot _))))).
  intros w c. reflexivity.
Defined.

Lemma setup_buttons_prefix (env : Env) (bouncetime : Z)
      (buttons : list ButtonModel.t) :
  forall w,
    let r := setup_buttons env bouncetime buttons w in
    exists n,
      listeners (gpio (snd r))
      = listeners (gpio w) ++ firstn n (map listener_of buttons)
      /\ (fst r = Ret tt -> n = List.length buttons).
Proof.
  induction buttons as [|b rest IH]; intros w; simpl.
  - exists 0%nat. now rewrite app_nil_r.
  - unfold bind, GPIO_setup_, GPIO_add_event_detect_, extcall.
    destruct (fault env w _); cbv beta iota.
    { exists 0%nat. simpl. rewrite app_nil_r. split; auto. discriminate. }
    destruct (fault env _ _); cbv beta iota.
    { exists 0%nat. simpl. rewrite app_nil_r. split; auto. discriminate. }
    match goal with
    | |- context [setup_buttons env bouncetime rest ?v] =>
        destruct (IH v) as [n [L R]]
    end.
    exists (S n). simpl in *. rewrite L, <- app_assoc. split; auto.
Qed.

Lemma init_gpio_prefix :
  forall (env : Env) (config : OverallModel.t)
         (handler : ButtonModel.t -> M unit) (w : world),
    let r := init_gpio env config handler w in
    exists n,
      listeners (gpio (snd r))
      = listeners (gpio w) ++ firstn n (map listener_of (buttons_of config))
      /\ match fst r with
         | Ret _ => n = List.length (buttons_of config)
         | _ => True
         end.
Proof.
  intros env config handler w r. subst r.
  unfold init_gpio, bind, GPIO_setmode_, extcall, iter, attr, ret, raise.
  destruct (fault env w _); cbv beta iota.
  { exists 0%nat. cbn [fst snd gpio listeners firstn]. rewrite app_nil_r.
    split; [reflexivity | exact I]. }
  unfold buttons_of. destruct (OverallModel.buttons config) as [bs|].
  - match goal with
    | |- context [setup_buttons env ?b bs ?v] =>
        destruct (setup_buttons_prefix env b bs v) as [n [L R]];
        destruct (setup_buttons env b bs v) as [[[]|e|] w2]
    end; cbn [fst snd gpio listeners] in *; try (exists n; now auto).
    exists n.
    destruct (OverallModel.led config) as [l|]; cbv beta iota;
      [|now auto].
    unfold GPIO_setup_, GPIO_output_, extcall, logger, emit.
    destruct (fault env w2 _); cbv beta iota; cbn [fst snd gpio listeners];
      [now auto|].
    destruct (fault env _ _); cbv beta iota; cbn [fst snd gpio listeners];
      auto.
  - exists 0%nat. cbn [fst snd gpio listeners firstn]. rewrite app_nil_r.
    split; [reflexivity | exact I].
Qed.

(** X9: whatever the facility answers, the listeners armed when
    [init_gpio] is left are those that were there plus the first few
    buttons of the configuration, in order: [init_gpio] stops at the first
    call that fails, and arms nothing else.  When it returns, all of them
    are armed. *)
Theorem init_gpio_arms_a_prefix_of_the_buttons :
  forall (env : Env) (config : OverallModel.t)
         (handler : ButtonModel.t -> M unit) (w : world),
    let r := init_gpio env config handler w in
    exists n,
      listeners (gpio (snd r))
      = listeners (gpio w) ++ firstn n (map listener_of (buttons_of config))
      /\ match fst r with
         | Ret _ => n = List.length (buttons_of config)
         | _ => True
         end.
Proof.
  intros env config handler w. apply init_gpio_prefix.
Qed.

(** X10: without a buttons section, [init_gpio] sets the numbering mode and
    raises [TypeError] at the loop over the buttons (or the exception of
    [GPIO.setmode], if that call fails); it touches no pin. *)
Theorem init_gpio_without_buttons :
  forall (env : Env) (led : option LedModel.t) (bouncetime : Z)
         (i : option InfluxdbModel.t) (handler : ButtonModel.t -> M unit)
         (w : world),
    let r := init_gpio env (OverallModel.mk None led bouncetime i) handler w in
    emitted w (snd r) = [Ev (GPIO_setmode BOARD)]
    /\ fst r = match fault env w (GPIO_setmode BOARD) with
               | Some e => Raise e
               | None => Raise TypeError
               end.
Proof.
  intros env led bouncetime i handler w r. subst r.
  unfold init_gpio, bind, GPIO_setmode_, extcall, iter, raise. simpl.
  destruct (fault env w _); simpl; split; auto;
    apply emitted_app; apply events_snoc.
Qed.

(** X11: without a led section, and with a facility that refuses nothing,
    [init_gpio] arms the listener of every button and only then raises
    [AttributeError]; no pin has been set up as an output or driven. *)
Theorem init_gpio_without_led :
  forall (env : Env) (buttons : list ButtonModel.t) (bouncetime : Z)
         (i : option InfluxdbModel.t) (handler : ButtonModel.t -> M unit)
         (w : world),
    cooperative env ->
    let r := init_gpio env (OverallModel.mk (Some buttons) None bouncetime i)
               handler w in
    fst r = Raise AttributeError
    /\ emitted w (snd r)
       = Ev (GPIO_setmode BOARD) :: flat_map (button_calls bouncetime) buttons
    /\ listeners (gpio (snd r)) = listeners (gpio w) ++ map listener_of buttons.
Proof.
  intros env buttons bouncetime i handler w C r. subst r.
  unfold cooperative in C.
  unfold init_gpio, bind, GPIO_setmode_, extcall, iter, attr, ret, raise.
  simpl. rewrite C. cbv beta iota.
  match goal with
  | |- context [setup_buttons env bouncetime buttons ?v] =>
      destruct (setup_buttons_cooperative env bouncetime buttons C v)
        as [F [E [N [M [L V]]]]];
      destruct (setup_buttons env bouncetime buttons v) as [[[]|e|] w2]
  end; cbn [fst snd] in *; try discriminate.
  repeat split; auto.
  apply emitted_app. rewrite E. unfold events. simpl. rewrite map_app. simpl.
  now rewrite <- app_assoc.
Qed.

Lemma init_gpio_without_led_witness :
  fst (init_gpio quiet (OverallModel.mk (Some [happy; sad]) None 200 None)
         (fun _ => ret tt) boot)
  = Raise AttributeError.
Proof.
  refine (proj1 (init_gpio_without_led quiet [happy; sad] 200 None
                   (fun _ => ret tt) boot _)).
  intros w c. reflexivity.
Defined.

(** * More on the teardown *)

Lemma gpio_context_outcome :
  forall (A : Type) (env : Env) (config : OverallModel.t)
         (handler : ButtonModel.t -> M unit) (body : M A) (w : world),
    let inside := (init_gpio env config handler ;; body) w in
    let r := gpio_context env config handler body w in
    fst r = fst inside
    /\ match fst inside with
       | Blocked => snd r = snd inside
       | _ =>
           events (snd r)
           = events (snd inside) ++ [Log INFO ClosingGpio; Ev GPIO_cleanup]
           /\ gpio (snd r) = gpio_released
           /\ now (snd r) = now (snd inside)
       end.
Proof.
  intros A env config handler body w inside r. subst inside r.
  unfold gpio_context, try_finally.
  destruct ((init_gpio env config handler ;; body) w) as [[a|e|] w1];
    rewrite ?close_gpio_run; cbn [fst snd gpio now]; repeat split;
    unfold events; cbn [trace]; now rewrite map_app.
Qed.

(** X12: [gpio_context] hands on what happened inside it: the value or the
    exception of [init_gpio] followed by the body is the value or exception
    of the whole, after [close_gpio] has logged and released everything as
    the last two actions.  As long as the body is blocked, nothing has been
    released. *)
Theorem gpio_context_passes_the_outcome_through :
  forall (A : Type) (env : Env) (config : OverallModel.t)
         (handler : ButtonModel.t -> M unit) (body : M A) (w : world),
    let inside := (init_gpio env config handler ;; body) w in
    let r := gpio_context env config handler body w in
    fst r = fst inside
    /\ match fst inside with
       | Blocked => snd r = snd inside
       | _ =>
           events (snd r)
           = events (snd inside) ++ [Log INFO ClosingGpio; Ev GPIO_cleanup]
           /\ gpio (snd r) = gpio_released
           /\ now (snd r) = now (snd inside)
       end.
Proof.
  intros A env config handler body w. apply gpio_context_outcome.
Qed.

(** X13: when [init_gpio] raises, the body of the [with] statement is not
    run at all: the exception leaves [gpio_context] after the teardown, and
    the trace is that of [init_gpio] followed by that of [close_gpio],
    whatever the body is. *)
Theorem failed_init_skips_the_body :
  forall (A : Type) (env : Env) (config : OverallModel.t)
         (handler : ButtonModel.t -> M unit) (body : M A) (w : world)
         (e : exn),
    fst (init_gpio env config handler w) = Raise e ->
    let r := gpio_context env config handler body w in
    fst r = Raise e
    /\ events (snd r)
       = events (snd (init_gpio env config handler w))
         ++ [Log INFO ClosingGpio; Ev GPIO_cleanup]
    /\ gpio (snd r) = gpio_released.
Proof.
  intros A env config handler body w e H r. subst r.
  unfold gpio_context, try_finally, bind.
  destruct (init_gpio env config handler w) as [[[]|e'|] w1];
    cbn [fst snd] in *; try discriminate.
  injection H as ->. rewrite close_gpio_run. cbn [fst snd gpio].
  repeat split. unfold events. cbn [trace]. now rewrite map_app.
Qed.

Lemma failed_init_skips_the_body_witness :
  let config := OverallModel.mk (Some [happy; sad]) None 200 (Some mood_db) in
  let r := gpio_context quiet config (fun _ => ret tt)
             (main_loop (fun _ => ret tt) [Edge 5 0; Wake]) boot in
  fst r = Raise AttributeError
  /\ events (snd r)
     = events (snd (init_gpio quiet config (fun _ => ret tt) boot))
       ++ [Log INFO ClosingGpio; Ev GPIO_cleanup]
  /\ gpio (snd r) = gpio_released.
Proof.
  exact (failed_init_skips_the_body unit quiet
           (OverallModel.mk (Some [happy; sad]) None 200 (Some mood_db))
           (fun _ => ret tt)
           (main_loop (fun _ => ret tt) [Edge 5 0; Wake]) boot AttributeError
           eq_refl).
Defined.

(** X14: without an influxdb section [main] raises [AttributeError] before
    it has called anything: no client, no GPIO call, no log record, and the
    script is never looked at. *)
Theorem main_without_influxdb_does_nothing :
  forall (env : Env) (buttons : option (list ButtonModel.t))
         (led : option LedModel.t) (bouncetime : Z) (script : list stimulus)
         (w : world),
    main env (OverallModel.mk buttons led bouncetime None) script w
    = (Raise AttributeError, w).
Proof.
  intros env buttons led bouncetime script w. unfold main, bind.
  now rewrite handler_construction_none.
Qed.

(** A start that nothing refuses: [main] reaches its loop in a world
    where everything is armed. *)
Lemma main_armed (env : Env) (buttons : list ButtonModel.t) (led : LedModel.t)
      (bouncetime : Z) (icfg : InfluxdbModel.t) (script : list stimulus)
      (w : world) :
  cooperative env ->
  let config :=
    OverallModel.mk (Some buttons) (Some led) bouncetime (Some icfg) in
  let db := InfluxdbModel.database_name icfg in
  let c := next_client w db in
  let h := button_callback env config (influxdb_callback env (Some icfg) c) in
  let w3 := snd (init_gpio env config h
                   (snd (emit (Ev (create_database c db))
                           (snd (emit (Ev (InfluxDBClient db)) w))))) in
  main env config script w = try_finally (main_loop h script) close_gpio w3
  /\ events w3 = events w ++ startup_events buttons led bouncetime icfg c
  /\ now w3 = now w
  /\ listeners (gpio w3) = listeners (gpio w) ++ map listener_of buttons.
Proof.
  intros C config db c h w3.
  set (w2 := snd (emit (Ev (create_database c db))
                    (snd (emit (Ev (InfluxDBClient db)) w)))) in *.
  destruct (init_gpio_cooperative env buttons led bouncetime (Some icfg) h w2 C)
    as [I [E [_ [L _]]]].
  pose proof (init_gpio_cooperative_now env buttons led bouncetime (Some icfg)
                h w2 C) as N.
  destruct (init_gpio_emits env config h w2) as [l [El _]].
  fold config in I, E, L, N. fold w3 in E, L, N, El.
  split; [|split; [|split]].
  - unfold main, bind.
    rewrite (handler_construction env config icfg w eq_refl). cbv zeta.
    rewrite !C. fold db. fold c. fold h. fold w2.
    unfold gpio_context, try_finally, bind. subst w3.
    destruct (init_gpio env config h w2) as [[[]|e|] v]; cbn [fst snd] in *;
      try discriminate. reflexivity.
  - rewrite (emitted_app _ _ _ El) in E. subst l. rewrite El.
    unfold w2. rewrite !emit_events. unfold startup_events.
    fold db. rewrite <- !app_assoc. reflexivity.
  - unfold w3. rewrite N. reflexivity.
  - exact L.
Qed.

(** X15: with libraries that refuse nothing and a configuration that has
    its three sections, [main] is left by an exception only through a
    signal that is raised in the main thread during the sleep of the main
    loop: [main] then raises exactly that exception, after the teardown.  A
    signal that terminates the process ends the run as it stands, with no
    teardown.  As long as no signal arrives the process stays armed,
    however many edges and wake-ups there are. *)
Theorem main_ends_only_by_a_signal :
  forall (env : Env) (buttons : list ButtonModel.t) (led : LedModel.t)
         (bouncetime : Z) (icfg : InfluxdbModel.t)
         (script rest : list stimulus) (e : exn) (w : world),
    cooperative env ->
    forallb (fun s => negb (is_signal s)) script = true ->
    let config :=
      OverallModel.mk (Some buttons) (Some led) bouncetime (Some icfg) in
    fst (main env config script w) = Blocked
    /\ fst (main env config (script ++ Signal e :: rest) w) = Raise e
    /\ gpio (snd (main env config (script ++ Signal e :: rest) w))
       = gpio_released
    /\ main env config (script ++ Terminate :: rest) w
       = main env config script w
    /\ cleanups (emitted w (snd (main env config
                                   (script ++ Terminate :: rest) w)))
       = 0%nat.
Proof.
  intros env buttons led bouncetime icfg script rest e w C S config.
  destruct (main_armed env buttons led bouncetime icfg script w C)
    as [G1 _].
  destruct (main_armed env buttons led bouncetime icfg
              (script ++ Signal e :: rest) w C) as [G2 _].
  cbv zeta in G1, G2. fold config in G1, G2.
  set (h := button_callback env config _) in *.
  set (w3 := snd (init_gpio env config h _)) in *.
  destruct (signal_ends_the_loop h script rest e S (now w3)
              (snd (emit (Ev (time_sleep 300000)) w3))) as [Sg Bl].
  assert (B : fst (main env config script w) = Blocked).
  { rewrite G1. unfold try_finally, main_loop, bind, emit. cbv beta iota.
    unfold emit in Bl. cbn [snd] in Bl.
    destruct (keep_alive h (now w3) script _) as [[[]|x|] v];
      cbn [fst] in Bl; try discriminate. reflexivity. }
  split; [exact B|]. split; [|split; [|split]].
  - rewrite G2. unfold try_finally, main_loop, bind, emit. cbv beta iota.
    unfold emit in Sg. cbn [snd] in Sg.
    destruct (keep_alive h (now w3) (script ++ Signal e :: rest) _)
      as [[[]|x|] v]; cbn [fst] in Sg; try discriminate.
    injection Sg as ->. now rewrite close_gpio_run.
  - rewrite G2. unfold try_finally, main_loop, bind, emit. cbv beta iota.
    unfold emit in Sg. cbn [snd] in Sg.
    destruct (keep_alive h (now w3) (script ++ Signal e :: rest) _)
      as [[[]|x|] v]; cbn [fst] in Sg; try discriminate.
    now rewrite close_gpio_run.
  - apply main_terminate.
  - rewrite main_terminate.
    pose proof (teardown_cases env config script w) as T. cbv zeta in T.
    rewrite B in T.
    rewrite (handler_construction env config icfg w eq_refl) in T.
    cbv zeta in T. rewrite !C in T. exact T.
Qed.

Lemma main_ends_only_by_a_signal_witness :
  fst (main quiet demo [Edge 5 0; Wake] boot) = Blocked
  /\ fst (main quiet demo ([Edge 5 0; Wake] ++ Signal KeyboardInterrupt :: [])
            boot)
     = Raise KeyboardInterrupt
  /\ gpio (snd (main quiet demo
                  ([Edge 5 0; Wake] ++ Signal KeyboardInterrupt :: []) boot))
     = gpio_released
  /\ main quiet demo ([Edge 5 0; Wake] ++ Terminate :: []) boot
     = main quiet demo [Edge 5 0; Wake] boot
  /\ cleanups (emitted boot
                 (snd (main quiet demo ([Edge 5 0; Wake] ++ Terminate :: [])
                         boot)))
     = 0%nat.
Proof.
  refine (main_ends_only_by_a_signal quiet [happy; sad] (LedModel.mk 6 200) 200
            mood_db [Edge 5 0; Wake] [] KeyboardInterrupt boot _ _).
  - intros w c. reflexivity.
  - reflexivity.
Defined.

(** * What the process does to the outside *)

Section Footprint.

Context (env : Env) (p : event -> bool).

Lemma emits_attr_some {A B : Type} (a : A) (k : A -> M B) :
  emits p (k a) -> emits p (bind (attr (Some a)) k).
Proof. intros H w. exact (H w). Qed.

Lemma emits_iter_some {A B : Type} (l : list A) (k : list A -> M B) :
  emits p (k l) -> emits p (bind (iter (Some l)) k).
Proof. intros H w. exact (H w). Qed.

Lemma emits_attr_none {A B : Type} (k : A -> M B) :
  emits p (bind (attr None) k).
Proof. intros w. exists []. now rewrite app_nil_r. Qed.

Lemma emits_iter_none {A B : Type} (k : list A -> M B) :
  emits p (bind (iter None) k).
Proof. intros w. exists []. now rewrite app_nil_r. Qed.

Hypothesis p_pressed :
  forall l pin, p (Log INFO (ButtonWasPressed l pin)) = true.
Hypothesis p_mismatch :
  forall a b, Z.eqb b a = false ->
              p (Log ERROR (CallbackGotEventFor a b)) = true.
Hypothesis p_alive : p (Log DEBUG StillAlive) = true.
Hypothesis p_sleep : p (Ev (time_sleep 300000)) = true.

Lemma callback_for_button_emits_any button handler pin :
  (forall b, emits p (handler b)) ->
  emits p (callback_for_button button handler pin).
Proof.
  intros H. unfold callback_for_button.
  destruct (pin =? ButtonModel.pin button) eqn:Q; simpl; emits_auto.
Qed.

Lemma deliver_emits_any handler pin t :
  (forall b, emits p (handler b)) -> emits p (deliver handler pin t).
Proof.
  intros H. unfold deliver. emits_auto.
  apply emits_dep with (f := fun v => deliver_to handler pin (listeners (gpio v))).
  intros v. induction (listeners (gpio v)) as [|[q b] ls IH]; simpl; emits_auto.
  now apply callback_for_button_emits_any.
Qed.

Lemma keep_alive_emits_any handler script :
  (forall b, emits p (handler b)) ->
  forall started, emits p (keep_alive handler started script).
Proof.
  intros H. induction script as [|[pin t| |e|] rest IH]; intros started; simpl.
  - now apply emits_silent.
  - emits_auto. now apply deliver_emits_any.
  - emits_auto.
    apply emits_dep with
      (f := fun v => emit (Ev (time_sleep 300000)) ;;
                     keep_alive handler (now v) rest).
    intros v. emits_auto.
  - emits_auto.
  - now apply emits_silent.
Qed.

Lemma main_loop_emits_any handler script :
  (forall b, emits p (handler b)) -> emits p (main_loop handler script).
Proof.
  intros H. unfold main_loop.
  apply emits_dep with
    (f := fun v => emit (Ev (time_sleep 300000)) ;;
                   keep_alive handler (now v) script).
  intros v. emits_auto. now apply keep_alive_emits_any.
Qed.

End Footprint.

Lemma existsb_pin_in (b : ButtonModel.t) (bs : list ButtonModel.t) :
  In b bs ->
  existsb (fun b' => ButtonModel.pin b =? ButtonModel.pin b') bs = true.
Proof.
  intros H. apply existsb_exists. exists b. split; auto. apply Z.eqb_refl.
Qed.

Lemma setup_buttons_footprint (env : Env) (config : OverallModel.t)
      (rest : list ButtonModel.t) :
  (forall b, In b rest -> In b (buttons_of config)) ->
  emits (footprint config)
        (setup_buttons env (OverallModel.bouncetime config) rest).
Proof.
  induction rest as [|b rest IH]; intros H; simpl.
  - apply emits_ret.
  - unfold GPIO_setup_, GPIO_add_event_detect_. emits_auto.
    + unfold footprint. simpl.
      rewrite (existsb_pin_in b); [reflexivity | apply H; now left].
    + unfold footprint. simpl.
      rewrite !Z.eqb_refl, (existsb_pin_in b); [reflexivity | apply H; now left].
    + apply IH. intros b' Hb. apply H. now right.
Qed.

Lemma init_gpio_footprint (env : Env) (config : OverallModel.t)
      (handler : ButtonModel.t -> M unit) :
  emits (footprint config) (init_gpio env config handler).
Proof.
  unfold init_gpio, GPIO_setmode_. apply emits_bind; [emits_auto|intros _].
  pose proof (setup_buttons_footprint env config (buttons_of config)) as S.
  unfold buttons_of in S.
  destruct (OverallModel.buttons config) as [bs|] eqn:B.
  - apply emits_iter_some. apply emits_bind; [apply S; auto|intros _].
    destruct (OverallModel.led config) as [l|] eqn:L.
    + apply emits_attr_some. unfold GPIO_setup_, GPIO_output_. emits_auto;
        unfold footprint; simpl; rewrite ?B, L, ?Z.eqb_refl; reflexivity.
    + apply emits_attr_none.
  - apply emits_iter_none.
Qed.

Lemma flash_led_footprint (env : Env) (config : OverallModel.t) :
  emits (footprint config) (flash_led env (OverallModel.led config)).
Proof.
  unfold flash_led. apply emits_bind; [emits_auto|intros _].
  destruct (OverallModel.led config) as [l|] eqn:L.
  - apply emits_attr_some. unfold GPIO_output_. emits_auto;
      unfold footprint; simpl; rewrite L, ?Z.eqb_refl, ?orb_true_r; reflexivity.
  - apply emits_attr_none.
Qed.

Lemma button_callback_footprint (env : Env) (config : OverallModel.t)
      (icfg : option InfluxdbModel.t) (c : client) (button : ButtonModel.t) :
  emits (footprint config)
        (button_callback env config (influxdb_callback env icfg c) button).
Proof.
  unfold button_callback. apply emits_bind; [|intros _].
  - unfold influxdb_callback. emits_auto.
  - apply flash_led_footprint.
Qed.

Lemma main_footprint (env : Env) (config : OverallModel.t)
      (script : list stimulus) :
  emits (footprint config) (main env config script).
Proof.
  intros w. unfold main, bind.
  destruct (OverallModel.influxdb config) as [icfg|] eqn:I.
  - rewrite (handler_construction env config icfg w I). cbv zeta.
    set (db := InfluxdbModel.database_name icfg).
    set (c := next_client w db).
    set (w1 := snd (emit (Ev (InfluxDBClient db)) w)).
    set (w2 := snd (emit (Ev (create_database c db)) w1)).
    assert (E1 : events w1 = events w ++ [Ev (InfluxDBClient db)])
      by apply emit_events.
    assert (E2 : events w2
                 = events w ++ [Ev (InfluxDBClient db);
                                Ev (create_database c db)]).
    { unfold w2. rewrite emit_events, E1, <- app_assoc. reflexivity. }
    destruct (fault env w _); cbv beta iota; cbn [snd].
    { exists [Ev (InfluxDBClient db)]. auto. }
    destruct (fault env w1 _); cbv beta iota; cbn [snd].
    { exists [Ev (InfluxDBClient db); Ev (create_database c db)]. auto. }
    set (h := button_callback env config (influxdb_callback env (Some icfg) c)).
    assert (G : emits (footprint config)
                  (gpio_context env config h (main_loop h script))).
    { unfold gpio_context, close_gpio. emits_auto.
      - apply init_gpio_footprint.
      - apply main_loop_emits_any; try reflexivity.
        + intros x y Q. unfold footprint. simpl. now rewrite Q.
        + intros b. apply button_callback_footprint. }
    destruct (G w2) as [l [El Pl]].
    exists ([Ev (InfluxDBClient db); Ev (create_database c db)] ++ l).
    rewrite El, E2, <- app_assoc. split; auto.
  - rewrite (handler_construction_none env config w I). exists [].
    now rewrite app_nil_r.
Qed.

Lemma main_footprint_emitted (env : Env) (config : OverallModel.t)
      (script : list stimulus) (w : world) (q : event -> bool) :
  (forall e, footprint config e = true -> q e = true) ->
  forallb q (emitted w (snd (main env config script w))) = true.
Proof.
  intros H. destruct (main_footprint env config script w) as [l [E P]].
  rewrite (emitted_app _ _ _ E).
  now apply forallb_weaken with (p := footprint config).
Qed.

Lemma footprint_parts (config : OverallModel.t) (e : event) :
  footprint config e = true ->
  drives_led_only config e = true
  /\ claims_configured_pins config e = true
  /\ error_is_mismatch e = true
  /\ sleeps_as_configured config e = true.
Proof.
  unfold footprint. intros H.
  apply andb_prop in H as [H S]. apply andb_prop in H as [H E].
  apply andb_prop in H as [D C]. auto.
Qed.

(** X16: the only pin that a run of [main] ever drives is the LED pin of
    the configuration: every [GPIO.output], in [init_gpio] and in every
    press, is on [led.pin]. *)
Theorem main_drives_only_the_led_pin :
  forall (env : Env) (config : OverallModel.t) (script : list stimulus)
         (w : world),
    forallb (drives_led_only config)
            (emitted w (snd (main env config script w))) = true.
Proof.
  intros env config script w. apply main_footprint_emitted.
  intros e H. now apply footprint_parts in H.
Qed.

(** X17: every pin that a run of [main] claims comes from the
    configuration: the numbering is BOARD; an input is the pin of a
    configured button, pulled down; a listener is for rising edges on the
    pin of the button it is registered for, with the configured bouncetime;
    an output is the LED pin. *)
Theorem main_claims_only_configured_pins :
  forall (env : Env) (config : OverallModel.t) (script : list stimulus)
         (w : world),
    forallb (claims_configured_pins config)
            (emitted w (snd (main env config script w))) = true.
Proof.
  intros env config script w. apply main_footprint_emitted.
  intros e H. now apply footprint_parts in H.
Qed.

(** X18: the only record that a run of [main] writes at error severity is
    the pin mismatch of [callback_for_button], and only for a pin that
    differs from the button's; nothing else (a failed upload, a refused GPIO
    call) is logged as an error. *)
Theorem main_logs_no_error_but_the_pin_mismatch :
  forall (env : Env) (config : OverallModel.t) (script : list stimulus)
         (w : world),
    forallb error_is_mismatch
            (emitted w (snd (main env config script w))) = true.
Proof.
  intros env config script w. apply main_footprint_emitted.
  intros e H. now apply footprint_parts in H.
Qed.

(** X19: the only sleeps in a run of [main] are the 300 s of the main loop
    and the [flash_time_ms] of the configured led. *)
Theorem main_sleeps_only_as_configured :
  forall (env : Env) (config : OverallModel.t) (script : list stimulus)
         (w : world),
    forallb (sleeps_as_configured config)
            (emitted w (snd (main env config script w))) = true.
Proof.
  intros env config script w. apply main_footprint_emitted.
  intros e H. now apply footprint_parts in H.
Qed.

(** * The liveness record *)

Lemma no_alive_count (l : list event) :
  forallb (fun e => negb (is_still_alive e)) l = true ->
  List.length (filter is_still_alive l) = 0%nat.
Proof. intros H. now rewrite filter_none. Qed.

Lemma keep_alive_alive_count (handler : ButtonModel.t -> M unit)
      (script : list stimulus) :
  (forall b, emits (fun e => negb (is_still_alive e)) (handler b)) ->
  forall started w,
  exists l,
    events (snd (keep_alive handler started script w)) = events w ++ l
    /\ List.length (filter is_still_alive l) = wakes script.
Proof.
  intros H. induction script as [|[pin t| |e|] rest IH]; intros started w;
    simpl.
  - exists []. now rewrite app_nil_r.
  - assert (D : emits (fun e => negb (is_still_alive e))
                  (deliver handler pin t))
      by (apply deliver_emits_any; auto).
    destruct (D w) as [l1 [E1 P1]].
    pose proof (deliver_returns handler pin t w) as R.
    unfold bind. destruct (deliver handler pin t w) as [[[]|x|] w1];
      simpl in R; try discriminate. simpl in E1.
    destruct (IH started w1) as [l2 [E2 C2]].
    exists (l1 ++ l2). rewrite E2, E1, <- app_assoc. split; auto.
    rewrite filter_app, length_app, C2, (no_alive_count l1 P1). reflexivity.
  - unfold bind, at_instant, logger, emit. simpl.
    match goal with
    | |- context [keep_alive handler ?s rest ?v] =>
        destruct (IH s v) as [l2 [E2 C2]]
    end.
    exists (Log DEBUG StillAlive :: Ev (time_sleep 300000) :: l2).
    rewrite E2. split; [|simpl; now rewrite C2].
    unfold events. simpl. rewrite !map_app. simpl. now rewrite <- !app_assoc.
  - exists []. now rewrite app_nil_r.
  - exists []. now rewrite app_nil_r.
Qed.

(** X20: the main loop writes one "Still alive..." record for every return
    of its [time.sleep(300)], and the presses handled in between add none:
    in the trace of the loop there are exactly as many of these records as
    the sleep has returned before the first signal. *)
Theorem one_alive_record_per_wake :
  forall (env : Env) (config : OverallModel.t)
         (icfg : option InfluxdbModel.t) (c : client)
         (script : list stimulus) (w : world),
    let handler := button_callback env config (influxdb_callback env icfg c) in
    List.length
      (filter is_still_alive
              (emitted w (snd (main_loop handler script w))))
    = wakes script.
Proof.
  intros env config icfg c script w handler.
  assert (H : forall b, emits (fun e => negb (is_still_alive e)) (handler b)).
  { intros b. unfold handler, button_callback, influxdb_callback, flash_led,
      GPIO_output_. emits_auto. }
  unfold main_loop, bind, emit. cbv beta iota.
  match goal with
  | |- context [keep_alive handler ?s script ?v] =>
      destruct (keep_alive_alive_count handler script H s v) as [l [E C]]
  end.
  assert (E' : events (snd (keep_alive handler (now w) script
                              (mk_world (trace w ++ [(now w, Ev (time_sleep 300000))])
                                        (now w) (gpio w))))
               = events w ++ Ev (time_sleep 300000) :: l).
  { rewrite E. rewrite events_snoc. now rewrite <- app_assoc. }
  rewrite (emitted_app _ _ _ E'). simpl. exact C.
Qed.

(** * Where the points come from *)

Lemma press_writes_for_its_button (env : Env) (config : OverallModel.t)
      (icfg : InfluxdbModel.t) (c : client) (bs : list ButtonModel.t)
      (button : ButtonModel.t) (pin : Z) :
  In button bs ->
  emits (writes_for_a_button icfg bs)
        (callback_for_button button
           (button_callback env config (influxdb_callback env (Some icfg) c))
           pin).
Proof.
  intros I. unfold callback_for_button, button_callback.
  emits_auto.
  - unfold influxdb_callback. apply emits_attr_some.
    emits_auto. unfold writes_for_a_button, field_of_a_button. simpl.
    rewrite String.eqb_refl. simpl.
    apply existsb_exists. exists button. split; auto.
    now rewrite String.eqb_refl, Z.eqb_refl.
  - unfold flash_led, GPIO_output_. emits_auto.
Qed.

Lemma deliver_to_writes_for_buttons (env : Env) (config : OverallModel.t)
      (icfg : InfluxdbModel.t) (c : client) (bs : list ButtonModel.t)
      (pin : Z) (ls : list (Z * ButtonModel.t)) :
  (forall x, In x ls -> In (snd x) bs) ->
  emits (writes_for_a_button icfg bs)
        (deliver_to (button_callback env config
                       (influxdb_callback env (Some icfg) c)) pin ls)
  /\ keeps listeners
           (deliver_to (button_callback env config
                          (influxdb_callback env (Some icfg) c)) pin ls).
Proof.
  induction ls as [|[q b] ls IH]; intros H; simpl.
  - split; [apply emits_ret | apply keeps_ret].
  - destruct IH as [E K]; [intros x Hx; apply H; now right|].
    split.
    + emits_auto. apply press_writes_for_its_button.
      apply (H (q, b)). now left.
    + keeps_auto. apply press_keeps_listeners.
Qed.

Lemma keep_alive_writes_for_buttons (env : Env) (config : OverallModel.t)
      (icfg : InfluxdbModel.t) (c : client) (bs : list ButtonModel.t)
      (script : list stimulus) :
  forall started w,
    (forall x, In x (listeners (gpio w)) -> In (snd x) bs) ->
    exists l,
      events (snd (keep_alive (button_callback env config
                                 (influxdb_callback env (Some icfg) c))
                              started script w))
      = events w ++ l
      /\ forallb (writes_for_a_button icfg bs) l = true.
Proof.
  induction script as [|[pin t| |e|] rest IH]; intros started w H; simpl.
  - exists []. now rewrite app_nil_r.
  - set (h := button_callback env config _) in *.
    pose proof (deliver_returns h pin t w) as R.
    assert (D : exists l,
               events (snd (deliver h pin t w)) = events w ++ l
               /\ forallb (writes_for_a_button icfg bs) l = true
               /\ listeners (gpio (snd (deliver h pin t w)))
                  = listeners (gpio w)).
    { unfold deliver, bind, at_instant. cbv beta iota.
      set (w0 := mk_world (trace w) (Z.max (now w) t) (gpio w)).
      destruct (deliver_to_writes_for_buttons env config icfg c bs pin
                  (listeners (gpio w0)) H) as [E K].
      destruct (E w0) as [l [El Pl]]. exists l. repeat split; auto.
      apply (K w0). }
    destruct D as [l1 [E1 [P1 L1]]].
    unfold bind. destruct (deliver h pin t w) as [[[]|x|] w1];
      simpl in R; try discriminate. simpl in E1, L1.
    destruct (IH started w1) as [l2 [E2 P2]]; [now rewrite L1|].
    exists (l1 ++ l2). rewrite E2, E1, <- app_assoc. split; auto.
    now rewrite forallb_app, P1, P2.
  - unfold bind, at_instant, logger, emit. simpl.
    match goal with
    | |- context [keep_alive ?h ?s rest ?v] =>
        destruct (IH s v) as [l2 [E2 P2]]; [exact H|]
    end.
    exists (Log DEBUG StillAlive :: Ev (time_sleep 300000) :: l2).
    rewrite E2. split; [|simpl; exact P2].
    unfold events. simpl. rewrite !map_app. simpl. now rewrite <- !app_assoc.
  - exists []. now rewrite app_nil_r.
  - exists []. now rewrite app_nil_r.
Qed.

Lemma in_firstn_in {A : Type} (n : nat) (l : list A) (x : A) :
  In x (firstn n l) -> In x l.
Proof.
  revert l. induction n as [|n IH]; intros [|a l]; simpl; auto.
  - intros [].
  - intros [H|H]; auto.
Qed.

Lemma configuring_writes_nothing (icfg : InfluxdbModel.t)
      (bs : list ButtonModel.t) (e : event) :
  configuring e = true -> writes_for_a_button icfg bs e = true.
Proof. destruct e as [[]|[] []]; simpl; congruence. Qed.

(** X21: in a run of [main] that starts with no listener armed, every
    [write_points] hands over exactly one point, under the configured
    measurement name, whose single field is the label and the value of one
    of the configured buttons. *)
Theorem every_point_is_for_a_configured_button :
  forall (env : Env) (buttons : option (list ButtonModel.t))
         (led : option LedModel.t) (bouncetime : Z) (icfg : InfluxdbModel.t)
         (script : list stimulus) (w : world),
    let config := OverallModel.mk buttons led bouncetime (Some icfg) in
    listeners (gpio w) = [] ->
    forallb (writes_for_a_button icfg (buttons_of config))
            (emitted w (snd (main env config script w))) = true.
Proof.
  intros env buttons led bouncetime icfg script w config L0.
  set (bs := buttons_of config).
  unfold main, bind.
  rewrite (handler_construction env config icfg w eq_refl). cbv zeta.
  set (db := InfluxdbModel.database_name icfg).
  set (c := next_client w db).
  set (w1 := snd (emit (Ev (InfluxDBClient db)) w)).
  set (w2 := snd (emit (Ev (create_database c db)) w1)).
  assert (E1 : events w1 = events w ++ [Ev (InfluxDBClient db)])
    by apply emit_events.
  assert (E2 : events w2
               = events w ++ [Ev (InfluxDBClient db);
                              Ev (create_database c db)]).
  { unfold w2. rewrite emit_events, E1, <- app_assoc. reflexivity. }
  destruct (fault env w _); cbv beta iota; cbn [snd].
  { now rewrite (emitted_app _ _ _ E1). }
  destruct (fault env w1 _); cbv beta iota; cbn [snd].
  { now rewrite (emitted_app _ _ _ E2). }
  set (h := button_callback env config (influxdb_callback env (Some icfg) c)).
  destruct (gpio_context_outcome unit env config h (main_loop h script) w2)
    as [_ T].
  assert (I : exists l,
             events (snd ((init_gpio env config h ;; main_loop h script) w2))
             = events w2 ++ l
             /\ forallb (writes_for_a_button icfg bs) l = true).
  { unfold bind.
    destruct (init_gpio_emits env config h w2) as [l1 [El1 Pl1]].
    destruct (init_gpio_prefix env config h w2) as [n [Ln _]].
    assert (P1 : forallb (writes_for_a_button icfg bs) l1 = true).
    { apply forallb_weaken with (p := configuring); auto.
      apply configuring_writes_nothing. }
    destruct (init_gpio env config h w2) as [[[]|e|] w3]; cbn [fst snd] in *;
      try (exists l1; now auto).
    unfold main_loop, bind, emit. cbv beta iota.
    match goal with
    | |- context [keep_alive h ?s script ?v] =>
        destruct (keep_alive_writes_for_buttons env config icfg c bs script
                    s v) as [l2 [E2' P2]]
    end.
    { cbn [gpio]. rewrite Ln. unfold w2, w1, emit. cbn [snd gpio].
      rewrite L0. cbn [app]. intros x Hx.
      apply in_firstn_in in Hx. apply in_map_iff in Hx.
      destruct Hx as [b [<- Hb]]. exact Hb. }
    fold h in E2'. exists (l1 ++ Ev (time_sleep 300000) :: l2).
    rewrite E2', events_snoc. fold (events w3). rewrite El1, <- !app_assoc.
    split; auto. rewrite forallb_app, P1. simpl. exact P2. }
  destruct I as [l [El Pl]].
  destruct (fst ((init_gpio env config h ;; main_loop h script) w2)).
  - destruct T as [Ev' _]. rewrite El, E2, <- !app_assoc in Ev'.
    rewrite (emitted_app _ _ _ Ev'). simpl. rewrite forallb_app, Pl.
    reflexivity.
  - destruct T as [Ev' _]. rewrite El, E2, <- !app_assoc in Ev'.
    rewrite (emitted_app _ _ _ Ev'). simpl. rewrite forallb_app, Pl.
    reflexivity.
  - rewrite T. rewrite E2, <- app_assoc in El.
    rewrite (emitted_app _ _ _ El). simpl. exact Pl.
Qed.

Lemma every_point_is_for_a_configured_button_witness :
  forallb (writes_for_a_button mood_db [happy; sad])
          (emitted boot
             (snd (main quiet demo
                     [Edge 5 0; Edge 7 500; Signal KeyboardInterrupt] boot)))
  = true.
Proof.
  exact (every_point_is_for_a_configured_button quiet (Some [happy; sad])
           (Some (LedModel.mk 6 200)) 200 mood_db
           [Edge 5 0; Edge 7 500; Signal KeyboardInterrupt] boot eq_refl).
Defined.

(** X22: a configuration file in which a present section lacks a required
    key stops the program at once: [DataError] leaves the [__main__] block,
    nothing has been logged, and no client, GPIO call or teardown has taken
    place. *)
Theorem incomplete_configuration_stops_the_program :
  forall (env : Env) (raw_cfg : OverallModel.raw) (script : list stimulus)
         (w : world),
    raw_complete raw_cfg = false ->
    program env raw_cfg script w = (Raise DataError, w).
Proof.
  intros env raw_cfg script w H. unfold program, bind.
  pose proof (load_config_cases raw_cfg w)
    as L.
  rewrite H in L. now rewrite L.
Qed.

Lemma incomplete_configuration_stops_the_program_witness :
  program quiet
          (OverallModel.mk_raw (Some [ButtonModel.mk_raw (Some 5) None (Some 1)])
                               None None None)
          [Edge 5 0] boot
  = (Raise DataError, boot).
Proof.
  exact (incomplete_configuration_stops_the_program quiet
           (OverallModel.mk_raw
              (Some [ButtonModel.mk_raw (Some 5) None (Some 1)]) None None None)
           [Edge 5 0] boot eq_refl).
Defined.

(** * The handler that [main] registers *)

Lemma keep_alive_edges (handler : ButtonModel.t -> M unit) (pin : Z)
      (instants : list Z) :
  forall started w,
    keep_alive handler started (map (Edge pin) instants) w
    = (Blocked, snd (deliver_all handler (on_pin pin instants) w)).
Proof.
  induction instants as [|t rest IH]; intros started w; simpl; auto.
  pose proof (deliver_returns handler pin t w) as R.
  unfold bind. destruct (deliver handler pin t w) as [[[]|x|] w1];
    simpl in R; try discriminate.
  apply IH.
Qed.

Lemma no_listener_on (p : Z) (bs : list ButtonModel.t) :
  ~ In p (map ButtonModel.pin bs) ->
  filter (fun x => fst x =? p) (map listener_of bs) = [].
Proof.
  induction bs as [|a bs IH]; simpl; auto.
  intros H. destruct (ButtonModel.pin a =? p) eqn:Q.
  - apply Z.eqb_eq in Q. destruct H. now left.
  - apply IH. intros I. apply H. now right.
Qed.

Lemma armed_on_unique (b : ButtonModel.t) (bs : list ButtonModel.t) :
  NoDup (map ButtonModel.pin bs) -> In b bs ->
  filter (fun x => fst x =? ButtonModel.pin b) (map listener_of bs)
  = [(ButtonModel.pin b, b)].
Proof.
  induction bs as [|a bs IH]; simpl; intros D I; [destruct I|].
  inversion D as [|x l N D']. subst x l.
  destruct I as [->|I].
  - rewrite Z.eqb_refl, (no_listener_on _ _ N). reflexivity.
  - destruct (ButtonModel.pin a =? ButtonModel.pin b) eqn:Q.
    + apply Z.eqb_eq in Q. destruct N. rewrite Q. now apply in_map.
    + now apply IH.
Qed.

Lemma entered_same_pin (button : ButtonModel.t) (w : world) :
  events (entered button (ButtonModel.pin button) w)
  = events w
    ++ [Log INFO (ButtonWasPressed (ButtonModel.label button)
                                   (ButtonModel.pin button))].
Proof.
  unfold entered, bind, logger, emit, ret. rewrite Z.eqb_refl. simpl.
  apply events_snoc.
Qed.

Lemma button_calls_no_write (bouncetime : Z) (bs : list ButtonModel.t) :
  forallb (fun e => negb (is_write e)) (flat_map (button_calls bouncetime) bs)
  = true.
Proof. induction bs as [|b bs IH]; simpl; auto. Qed.

Lemma startup_events_no_write (buttons : list ButtonModel.t)
      (led : LedModel.t) (bouncetime : Z) (icfg : InfluxdbModel.t)
      (c : client) :
  forallb (fun e => negb (is_write e))
          (startup_events buttons led bouncetime icfg c) = true.
Proof.
  unfold startup_events. simpl.
  now rewrite forallb_app, button_calls_no_write.
Qed.

Lemma button_calls_listen (bouncetime : Z) (bs : list ButtonModel.t) :
  filter is_listen (flat_map (button_calls bouncetime) bs)
  = map (fun b => Ev (GPIO_add_event_detect (ButtonModel.pin b) RISING b
                                            bouncetime)) bs.
Proof. induction bs as [|b bs IH]; simpl; auto. now rewrite IH. Qed.

Lemma startup_events_listen (buttons : list ButtonModel.t)
      (led : LedModel.t) (bouncetime : Z) (icfg : InfluxdbModel.t)
      (c : client) :
  filter is_listen (startup_events buttons led bouncetime icfg c)
  = map (fun b => Ev (GPIO_add_event_detect (ButtonModel.pin b) RISING b
                                            bouncetime)) buttons.
Proof.
  unfold startup_events. simpl.
  now rewrite filter_app, button_calls_listen, app_nil_r.
Qed.

Lemma pressing_not_listen (c : client) (e : event) :
  pressing c e = true -> negb (is_listen e) = true.
Proof. destruct e as [[]|[] []]; simpl; congruence. Qed.

(** The armed loop inside the [try]: presses, then the teardown if the
    loop was left. *)
Lemma armed_loop_run (handler : ButtonModel.t -> M unit) (c : client)
      (script : list stimulus) (w : world) :
  (forall b, emits (pressing c) (handler b)) ->
  exists l tail,
    events (snd (try_finally (main_loop handler script) close_gpio w))
    = events w ++ l ++ tail
    /\ forallb (pressing c) l = true
    /\ (tail = [] \/ tail = [Log INFO ClosingGpio; Ev GPIO_cleanup]).
Proof.
  intros H. unfold try_finally.
  destruct (main_loop_emits c handler script H w) as [l [El Pl]].
  destruct (main_loop handler script w) as [[[]|e|] w1]; cbn [fst snd] in *.
  - exists l, [Log INFO ClosingGpio; Ev GPIO_cleanup].
    rewrite close_gpio_run. cbn [fst snd]. repeat split; auto.
    unfold events in *. cbn [trace]. now rewrite map_app, El, <- app_assoc.
  - exists l, [Log INFO ClosingGpio; Ev GPIO_cleanup].
    rewrite close_gpio_run. cbn [fst snd]. repeat split; auto.
    unfold events in *. cbn [trace]. now rewrite map_app, El, <- app_assoc.
  - exists l, []. rewrite app_nil_r. auto.
Qed.

(** A start that nothing refuses, followed by edges on the pin of one
    button: the process stays armed, and what it has done is what the
    deliveries did. *)
Lemma main_on_edges (env : Env) (buttons : list ButtonModel.t)
      (led : LedModel.t) (bouncetime : Z) (icfg : InfluxdbModel.t)
      (button : ButtonModel.t) (instants : list Z) (w : world) :
  cooperative env ->
  listeners (gpio w) = [] ->
  In button buttons ->
  NoDup (map ButtonModel.pin buttons) ->
  let config :=
    OverallModel.mk (Some buttons) (Some led) bouncetime (Some icfg) in
  let c := next_client w (InfluxdbModel.database_name icfg) in
  let h := button_callback env config (influxdb_callback env (Some icfg) c) in
  let pin := ButtonModel.pin button in
  exists w4,
    main env config (map (Edge pin) instants) w
    = (Blocked, snd (deliver_all h (on_pin pin instants) w4))
    /\ events w4
       = events w ++ startup_events buttons led bouncetime icfg c
                  ++ [Ev (time_sleep 300000)]
    /\ now w4 = now w
    /\ armed_on pin (gpio w4) = [(pin, button)].
Proof.
  intros C L0 I D config c h pin.
  destruct (main_armed env buttons led bouncetime icfg (map (Edge pin) instants)
              w C) as [G [E [N L]]].
  cbv zeta in G, E, N, L. fold config in G, E, N, L. fold c in G, E, N, L.
  fold h in G, E, N, L.
  set (w3 := snd (init_gpio env config h _)) in *.
  exists (snd (emit (Ev (time_sleep 300000)) w3)).
  split; [|split; [|split]].
  - rewrite G. unfold try_finally, main_loop, bind, emit. cbv beta iota.
    rewrite keep_alive_edges. reflexivity.
  - rewrite emit_events, E, <- app_assoc. reflexivity.
  - exact N.
  - unfold armed_on, emit. cbn [snd gpio]. rewrite L, L0. cbn [app].
    now apply armed_on_unique.
Qed.

Lemma main_edges_points (env : Env) (buttons : list ButtonModel.t)
      (led : LedModel.t) (bouncetime : Z) (icfg : InfluxdbModel.t)
      (button : ButtonModel.t) (instants : list Z) (w : world) :
  cooperative env ->
  listeners (gpio w) = [] ->
  In button buttons ->
  NoDup (map ButtonModel.pin buttons) ->
  let config :=
    OverallModel.mk (Some buttons) (Some led) bouncetime (Some icfg) in
  let c := next_client w (InfluxdbModel.database_name icfg) in
  let r := main env config (map (Edge (ButtonModel.pin button)) instants) w in
  fst r = Blocked
  /\ exists l,
       emitted w (snd r)
       = startup_events buttons led bouncetime icfg c
         ++ Ev (time_sleep 300000) :: l
       /\ Forall2 (fun t p => t <= time p
                              /\ p = measurement_of icfg button (time p))
                  instants (submitted l)
       /\ Forall (fun x => x = c) (writers l).
Proof.
  intros C L0 I D config c r. subst r.
  destruct (main_on_edges env buttons led bouncetime icfg button instants w
              C L0 I D) as [w4 [G [E [N A]]]].
  cbv zeta in G, A. fold config in G. fold c in G.
  destruct (edges_all_handled env config icfg c button instants w4 A)
    as [l [El [T W]]].
  rewrite G. split; [reflexivity|]. exists l. split; auto.
  apply emitted_app. cbn [snd]. rewrite El, E, <- !app_assoc. reflexivity.
Qed.

(** The same with one edge: the run is the start followed by one call of
    the handler, entered at the instant of the edge. *)
Lemma main_one_edge (env : Env) (buttons : list ButtonModel.t)
      (led : LedModel.t) (bouncetime : Z) (icfg : InfluxdbModel.t)
      (button : ButtonModel.t) (t : Z) (w : world) :
  cooperative env ->
  listeners (gpio w) = [] ->
  In button buttons ->
  NoDup (map ButtonModel.pin buttons) ->
  let config :=
    OverallModel.mk (Some buttons) (Some led) bouncetime (Some icfg) in
  let c := next_client w (InfluxdbModel.database_name icfg) in
  let h := button_callback env config (influxdb_callback env (Some icfg) c) in
  exists v,
    now v = Z.max (now w) t
    /\ main env config [Edge (ButtonModel.pin button) t] w
       = (Blocked, snd (h button v))
    /\ emitted w (snd (h button v))
       = startup_events buttons led bouncetime icfg c
         ++ Ev (time_sleep 300000)
            :: Log INFO (ButtonWasPressed (ButtonModel.label button)
                                          (ButtonModel.pin button))
            :: emitted v (snd (h button v)).
Proof.
  intros C L0 I D config c h.
  destruct (main_on_edges env buttons led bouncetime icfg button [t] w
              C L0 I D) as [w4 [G [E [N A]]]].
  cbv zeta in G, A. fold config in G. fold c in G. fold h in G.
  cbn [map] in G. unfold on_pin in G. cbn [map deliver_all] in G.
  pose proof (deliver_returns h (ButtonModel.pin button) t w4) as R.
  unfold bind at 1 in G.
  destruct (deliver h (ButtonModel.pin button) t w4) as [[[]|x|] w5] eqn:Dl;
    cbn [fst] in R; try discriminate.
  unfold ret in G. cbn [snd] in G.
  unfold deliver, bind, at_instant in Dl. cbv beta iota in Dl.
  cbn [gpio] in Dl.
  rewrite (deliver_to_single h _ button) in Dl; [|exact A].
  unfold invoke in Dl. rewrite callback_for_button_enters in Dl.
  set (v := entered button (ButtonModel.pin button) _) in Dl.
  injection Dl as <-.
  exists v. split; [|split].
  - unfold v. rewrite entered_now. cbn [now]. now rewrite N.
  - exact G.
  - destruct (button_callback_emits env config (Some icfg) c button v)
      as [l [El _]].
    fold h in El. rewrite (emitted_app _ _ _ El).
    apply emitted_app. rewrite El. unfold v. rewrite entered_same_pin.
    unfold events at 1. cbn [trace]. fold (events w4).
    rewrite E, <- !app_assoc. reflexivity.
Qed.

Lemma submitted_after_startup (buttons : list ButtonModel.t)
      (led : LedModel.t) (bouncetime : Z) (icfg : InfluxdbModel.t)
      (c : client) (e : event) (l : list event) :
  is_write e = false ->
  submitted (startup_events buttons led bouncetime icfg c
             ++ Ev (time_sleep 300000) :: e :: l)
  = submitted l
  /\ writers (startup_events buttons led bouncetime icfg c
              ++ Ev (time_sleep 300000) :: e :: l)
     = writers l.
Proof.
  intros H. rewrite submitted_app, writers_app.
  rewrite (submitted_none _ (startup_events_no_write _ _ _ _ _)).
  rewrite (writers_none _ (startup_events_no_write _ _ _ _ _)).
  destruct e as [[]|]; simpl in *; try discriminate; auto.
Qed.

Lemma footprint_driver_bouncetime (config : OverallModel.t) (e : event) :
  footprint config e = true ->
  driver_bouncetime (OverallModel.bouncetime config) e = true.
Proof.
  intros H. apply footprint_parts in H as [_ [H _]].
  destruct e as [[]|]; simpl in *; auto.
  apply andb_prop in H as [H _]. now apply andb_prop in H as [_ H].
Qed.

(** C6: take the handler that [post_to_influxdb_and_flash_led_callback]
    returns to [main], with the client that it built for the influxdb
    section of the configuration.  Every call of the callback registered
    for a button hands exactly one point to [write_points], through that
    client: the configured measurement name, the single field
    [label -> value] of the button, and the clock read when the callback
    was entered, whatever the store answers.  In a run of [main] that
    nothing refuses, one edge on the pin of a configured button submits
    that one point, stamped no earlier than the edge. *)
Theorem one_point_per_press :
  forall (env : Env) (config : OverallModel.t) (w0 w1 : world)
         (handler : ButtonModel.t -> M unit),
    post_to_influxdb_and_flash_led_callback env config w0 = (Ret handler, w1) ->
    exists icfg,
      OverallModel.influxdb config = Some icfg
      /\ (forall script,
            main env config script w0
            = gpio_context env config handler (main_loop handler script) w1)
      /\ (forall (button : ButtonModel.t) (pin : Z) (w : world),
            let w' := snd (callback_for_button button handler pin w) in
            submitted (emitted w w')
            = [mk_point (InfluxdbModel.measurement_name icfg)
                        [(ButtonModel.label button, ButtonModel.value button)]
                        (now w)]
            /\ writers (emitted w w')
               = [next_client w0 (InfluxdbModel.database_name icfg)])
      /\ (forall (buttons : list ButtonModel.t) (led : LedModel.t)
                 (button : ButtonModel.t) (t : Z),
            cooperative env ->
            OverallModel.buttons config = Some buttons ->
            OverallModel.led config = Some led ->
            listeners (gpio w0) = [] ->
            In button buttons ->
            NoDup (map ButtonModel.pin buttons) ->
            let r := main env config [Edge (ButtonModel.pin button) t] w0 in
            exists stamp,
              t <= stamp
              /\ submitted (emitted w0 (snd r))
                 = [mk_point (InfluxdbModel.measurement_name icfg)
                             [(ButtonModel.label button,
                               ButtonModel.value button)]
                             stamp]
              /\ writers (emitted w0 (snd r))
                 = [next_client w0 (InfluxdbModel.database_name icfg)]).
Proof.
  intros env config w0 w1 handler B.
  destruct (handler_built env config w0 w1 handler B) as [icfg [I H]].
  exists icfg. split; [exact I|]. split; [|split].
  - intros script. now apply main_with_handler.
  - intros button pin w w'. subst w' handler.
    destruct (press_events env config icfg
                (next_client w0 (InfluxdbModel.database_name icfg))
                button pin w) as [l [E [S W]]].
    now rewrite (emitted_app _ _ _ E).
  - intros buttons led button t C Bs L L0 In' D r. subst r.
    destruct config as [bs l bt i]. cbn in I, Bs, L. subst bs l i.
    destruct (main_one_edge env buttons led bt icfg button t w0 C L0 In' D)
      as [v [N [G E]]].
    cbv zeta in G, E. rewrite G. cbn [snd]. rewrite E.
    match goal with
    | |- context [?a ++ ?s :: ?e :: ?l] =>
        destruct (submitted_after_startup buttons led bt icfg
                    (next_client w0 (InfluxdbModel.database_name icfg))
                    e l eq_refl) as [S W]
    end.
    rewrite S, W.
    destruct (button_callback_submits env
                (OverallModel.mk (Some buttons) (Some led) bt (Some icfg)) icfg
                (next_client w0 (InfluxdbModel.database_name icfg)) button v)
      as [S' W'].
    cbv zeta in S', W'. rewrite S', W'. exists (now v).
    split; [rewrite N; lia | split; reflexivity].
Qed.

Lemma one_point_per_press_witness :
  let r := main quiet demo [Edge 5 100] boot in
  exists stamp,
    100 <= stamp
    /\ submitted (emitted boot (snd r))
       = [mk_point "pi_mood" [("happy", 1)] stamp]
    /\ writers (emitted boot (snd r)) = [client0].
Proof.
  destruct (one_point_per_press quiet demo boot
              (snd (post_to_influxdb_and_flash_led_callback quiet demo boot))
              (button_callback quiet demo
                 (influxdb_callback quiet (Some mood_db) client0))
              eq_refl) as [icfg [I [_ [_ M]]]].
  injection I as <-.
  refine (M [happy; sad] (LedModel.mk 6 200) happy 100 _ eq_refl eq_refl
            eq_refl _ _).
  - intros w c. reflexivity.
  - now left.
  - repeat constructor; simpl; intuition discriminate.
Defined.



(** C1 (as the code has it): the callback that [main] registers has no
    gate.  With the handler that
    [post_to_influxdb_and_flash_led_callback] returns to [main], the
    registered callback calls the handler on every call, so of the edges
    that the facility delivers on a pin with one armed button none is
    dropped: each one submits a point, stamped no earlier than the edge,
    whatever the time since the previous one; and so it is for the whole
    program, in every run that nothing refuses.  The configured bouncetime
    goes to the driver: it is the [bouncetime] argument of every
    [GPIO.add_event_detect] that [main] makes, one per button; and nowhere
    else: the handler is the same whatever the bouncetime. *)
Theorem every_delivered_edge_is_handled :
  forall (env : Env) (config : OverallModel.t) (w0 w1 : world)
         (handler : ButtonModel.t -> M unit),
    post_to_influxdb_and_flash_led_callback env config w0 = (Ret handler, w1) ->
    (forall script,
        main env config script w0
        = gpio_context env config handler (main_loop handler script) w1)
    /\ (forall button p v,
          callback_for_button button handler p v
          = handler button (entered button p v))
    /\ (forall (button : ButtonModel.t) (instants : list Z) (v : world),
          let pin := ButtonModel.pin button in
          armed_on pin (gpio v) = [(pin, button)] ->
          let v' := snd (deliver_all handler (on_pin pin instants) v) in
          List.length (submitted (emitted v v')) = List.length instants
          /\ Forall2 Z.le instants (map time (submitted (emitted v v'))))
    /\ (forall (buttons : list ButtonModel.t) (led : LedModel.t)
               (button : ButtonModel.t) (instants : list Z),
          cooperative env ->
          OverallModel.buttons config = Some buttons ->
          OverallModel.led config = Some led ->
          listeners (gpio w0) = [] ->
          In button buttons ->
          NoDup (map ButtonModel.pin buttons) ->
          let r := main env config
                     (map (Edge (ButtonModel.pin button)) instants) w0 in
          fst r = Blocked
          /\ List.length (submitted (emitted w0 (snd r)))
             = List.length instants
          /\ Forall2 Z.le instants (map time (submitted (emitted w0 (snd r)))))
    /\ (forall script,
          forallb (driver_bouncetime (OverallModel.bouncetime config))
                  (emitted w0 (snd (main env config script w0))) = true)
    /\ (forall (buttons : list ButtonModel.t) (led : LedModel.t) script,
          cooperative env ->
          OverallModel.buttons config = Some buttons ->
          OverallModel.led config = Some led ->
          filter is_listen (emitted w0 (snd (main env config script w0)))
          = map (fun b => Ev (GPIO_add_event_detect
                                (ButtonModel.pin b) RISING b
                                (OverallModel.bouncetime config)))
                buttons)
    /\ (forall bouncetime',
          exists handler',
            post_to_influxdb_and_flash_led_callback
              env (with_bouncetime config bouncetime') w0
            = (Ret handler', w1)
            /\ forall button v, handler' button v = handler button v).
Proof.
  intros env config w0 w1 handler B.
  destruct (handler_built env config w0 w1 handler B) as [icfg [I H]].
  set (c := next_client w0 (InfluxdbModel.database_name icfg)) in *.
  split; [|split; [|split; [|split; [|split; [|split]]]]].
  - intros script. now apply main_with_handler.
  - intros button p v. apply callback_for_button_enters.
  - intros button instants v pin A v'. subst v' handler pin.
    destruct (edges_all_handled env config icfg c button instants v A)
      as [l [E [T _]]].
    rewrite (emitted_app _ _ _ E). now apply stamped_le in T.
  - intros buttons led button instants C Bs L L0 In' D r. subst r.
    destruct config as [bs l bt i]. cbn in I, Bs, L. subst bs l i.
    destruct (main_edges_points env buttons led bt icfg button instants w0
                C L0 In' D) as [F [l [E [T _]]]].
    cbv zeta in F, E. split; [exact F|]. rewrite E.
    rewrite submitted_app.
    rewrite (submitted_none _ (startup_events_no_write _ _ _ _ _)).
    cbn [app submitted]. now apply stamped_le in T.
  - intros script. apply main_footprint_emitted.
    apply footprint_driver_bouncetime.
  - intros buttons led script C Bs L.
    destruct config as [bs l bt i]. cbn in I, Bs, L. subst bs l i.
    cbn [OverallModel.bouncetime].
    destruct (main_armed env buttons led bt icfg script w0 C)
      as [G [E _]].
    cbv zeta in G, E. fold c in G, E.
    set (h := button_callback env _ _) in *.
    set (w3 := snd (init_gpio env _ h _)) in *.
    destruct (armed_loop_run h c script w3
                (button_callback_emits env _ (Some icfg) c))
      as [l [tail [El [Pl Tl]]]].
    rewrite G.
    assert (Em : emitted w0 (snd (try_finally (main_loop h script)
                                              close_gpio w3))
                 = startup_events buttons led bt icfg c ++ l ++ tail).
    { apply emitted_app. rewrite El, E, <- !app_assoc. reflexivity. }
    rewrite Em, !filter_app, startup_events_listen.
    rewrite (filter_none is_listen l).
    + destruct Tl as [->| ->]; simpl; now rewrite app_nil_r.
    + apply forallb_weaken with (p := pressing c); auto.
      apply pressing_not_listen.
  - intros bouncetime'. exists handler. split; [|reflexivity].
    rewrite (handler_construction env config icfg w0 I) in B.
    rewrite (handler_construction env (with_bouncetime config bouncetime')
               icfg w0 I).
    cbv zeta in *. fold c in B |- *.
    destruct (fault env w0 _); [discriminate|].
    destruct (fault env _ _); [discriminate|].
    injection B as _ <-. rewrite H. reflexivity.
Qed.

Lemma every_delivered_edge_is_handled_witness :
  let r := main quiet quick_demo (map (Edge 5) [0; 50; 250]) boot in
  fst r = Blocked
  /\ List.length (submitted (emitted boot (snd r))) = 3%nat
  /\ Forall2 Z.le [0; 50; 250] (map time (submitted (emitted boot (snd r)))).
Proof.
  destruct (every_delivered_edge_is_handled quiet quick_demo boot
              (snd (post_to_influxdb_and_flash_led_callback quiet quick_demo
                      boot))
              (button_callback quiet quick_demo
                 (influxdb_callback quiet (Some mood_db) client0))
              eq_refl) as [_ [_ [_ [M _]]]].
  refine (M [happy; sad] (LedModel.mk 6 10) happy [0; 50; 250] _ eq_refl
            eq_refl eq_refl _ _).
  - intros w c. reflexivity.
  - now left.
  - repeat constructor; simpl; intuition discriminate.
Defined.
